(** * Lumino / heygen-backend: the video generation pipeline

    Shallow embedding of the generation core of the backend:
    - [getNextHeyGenKey] (credential pool, src/unnamed/part_001),
    - [removeWatermark] (the ffmpeg crop),
    - [checkVideoLimits] and [updateUsage] (src/heygen-backend/middleware/limits.js),
    - the handler of [app.post('/api/generate-video')] with its poll loop;
    and around it: [sanitizeInput]'s [deepSanitize], [verifyToken] and
    [userRateLimit] (src/unnamed/part_000), the pricing routes
    [/add-credits], [/buy-credits], [/credits] and [/check-limits], and the
    template, script, AI video and upload routes.

    The handler is written in a small state/exception monad: an early
    [return res.status(..)] is [Done], a JS [throw] is [Throw], and the
    world the handler talks to (Firestore, the HeyGen API, ffmpeg, Catbox)
    is an environment record of outcomes. *)

From stdpp Require Import base gmap sets list strings.
From Stdlib Require Import ZArith Lia Ascii.

(* ================================================================= *)
(** ** Credential pool *)

(** [keyUsageCount] is a JS object keyed by the API key string. *)
Abbreviation usage_map := (gmap string nat).

(** The quota is the literal [10] of [getNextHeyGenKey]. *)
Definition KEY_QUOTA : nat := 10.

(** [(keyUsageCount[key] || 0)] *)
Definition usage_of (keyUsageCount : usage_map) (key : string) : nat :=
  default 0 (keyUsageCount !! key).

(** The [for] loop of [getNextHeyGenKey]: the first key, in pool order,
    whose usage is below the quota. *)
Fixpoint first_below_quota (keys : list string) (keyUsageCount : usage_map)
  : option string :=
  match keys with
  | [] => None
  | key :: rest =>
      if decide (usage_of keyUsageCount key < KEY_QUOTA) then Some key
      else first_below_quota rest keyUsageCount
  end.

(** A JS property name: [HEYGEN_KEYS[0]] on an empty array is
    [undefined], which names the property ["undefined"]. *)
Definition js_property (k : option string) : string :=
  match k with Some s => s | None => "undefined" end.

(** [getNextHeyGenKey]: returns the key (or [undefined] = [None]) and the
    new value of the global [keyUsageCount]. *)
Definition getNextHeyGenKey (HEYGEN_KEYS : list string)
    (keyUsageCount : usage_map) : option string * usage_map :=
  match first_below_quota HEYGEN_KEYS keyUsageCount with
  | Some key => (Some key, <[key := usage_of keyUsageCount key + 1]> keyUsageCount)
  | None =>
      (* keyUsageCount = {}; keyUsageCount[HEYGEN_KEYS[0]] = 1 *)
      (head HEYGEN_KEYS, {[ js_property (head HEYGEN_KEYS) := 1 ]})
  end.

(** [n] sequential calls, threading the global counter map. *)
Fixpoint acquire_n (HEYGEN_KEYS : list string) (n : nat) (m : usage_map)
  : usage_map :=
  match n with
  | O => m
  | S n' => snd (getNextHeyGenKey HEYGEN_KEYS (acquire_n HEYGEN_KEYS n' m))
  end.

(* ================================================================= *)
(** ** Data of the generation endpoint *)

Open Scope Z_scope.

(** [CREDITS_PER_VIDEO] of limits.js. *)
Definition CREDITS_PER_VIDEO : Z := 20.

(** The fields of the Firestore document [users/{uid}] that the core reads
    or writes; a missing numeric field reads as [0]. *)
Record Account := mkAccount {
  credits : Z;
  creditsUsed : Z;
  videosGenerated : Z;
  lastVideoGenerated : option Z
}.

(** A [{ width, height }] object. *)
Record Dims := mkDims { width : Z; height : Z }.

(** [req.body] of the generate request; an absent or [null] [script] or
    [avatar] is the falsy [""]; [None] is an omitted optional field. *)
Record Request := mkRequest {
  req_script : string;
  req_avatar : string;
  req_voice : option string;
  req_orientation : option string;
  req_customDimensions : option Dims
}.

(** [req.user], set by [verifyToken]. *)
Record User := mkUser { uid : string; email : string }.

(** One document of the [videos] collection written by [storeVideoUrl]. *)
Record VideoRecord := mkVideoRecord {
  vr_id : string;
  vr_userId : string;
  vr_originalUrl : string;
  vr_processedUrl : string;
  vr_script : string;
  vr_avatar : string;
  vr_voice : string;
  vr_orientation : string;
  vr_dimensions : Dims;
  vr_status : string
}.

(** A JS error: [error.response] set (an HTTP error from axios, carrying
    its status) or not. *)
Inductive js_error :=
| HttpError (status : Z)
| PlainError (message : string).

(** The HTTP responses of the route (and of its middleware). *)
Inductive response :=
| AuthRequired                                   (* 401 *)
| InsufficientCredits (currentCredits creditsNeeded : Z)
    (upgradeOptions : list (string * Z * Z))     (* 403 *)
| CreditCheckFailed                              (* 500 'Failed to check credits' *)
| BadRequest                                     (* 400 'Script and avatar are required' *)
| NoApiKeys                                      (* 503 *)
| GenerationTimeout                              (* 408 *)
| HeyGenApiError (status : Z)                    (* error.response.status *)
| InternalError (message : string)               (* 500 *)
| Success (videoId videoUrl : string).

(** [upgradeOptions] of the 403 body: name, price, credits. *)
Definition upgradeOptions : list (string * Z * Z) :=
  [("buyCredits", 80, 20); ("basicPlan", 899, 400)].

(** The answer to one [video_status.get] query: the [status] and
    [video_url] fields of [statusResponse.data.data] (an absent
    [video_url] is [""]), or the query raises. *)
Inductive poll_response :=
| PollStatus (status video_url : string)
| PollRaises (e : js_error).

(** Result of the streamed download: [axios.get] fails (no file yet), the
    write stream fails (the file was opened), or it finishes. *)
Inductive download_outcome :=
| DownloadOk
| DownloadGetFails (e : js_error)
| DownloadWriteFails (e : js_error).

(** Result of the ffmpeg run; on error, [partial] says whether ffmpeg left
    an output file behind. *)
Inductive ffmpeg_outcome :=
| FfmpegOk
| FfmpegFails (partial : bool) (e : js_error).

(** The world the handler talks to. *)
Record World := mkWorld {
  w_user : option User;                    (* req.user *)
  w_read_ok : bool;                        (* users/{uid} get succeeds *)
  HEYGEN_KEYS : list string;
  w_generate : js_error + string;          (* HeyGen generate: video_id *)
  w_poll : nat -> poll_response;           (* answer to the n-th status query *)
  w_download : download_outcome;
  w_ffmpeg : ffmpeg_outcome;
  w_catbox : js_error + string;            (* Catbox answer, trimmed *)
  w_store : js_error + string;             (* Firestore doc id of the video *)
  w_update_ok : bool;                      (* the users/{uid} update succeeds *)
  w_tempVideoPath : string;                (* outputDir/temp-<uuid>.mp4 *)
  w_cleanVideoPath : string                (* outputDir/clean-<uuid>.mp4 *)
}.

(** The state the handler changes. *)
Record St := mkSt {
  keyUsageCount : usage_map;               (* global of the process *)
  account : option Account;                (* users/{uid}, if it exists *)
  videos : list VideoRecord;               (* the videos collection *)
  scratch : gset string;                   (* files present in outputDir *)
  submitted : list Dims;                   (* generate calls made to HeyGen *)
  status_queries : nat;                    (* video_status.get calls *)
  clock : Z;                               (* milliseconds *)
  usage_updates : nat                      (* updateUsage(uid, 'video') calls *)
}.

Definition set_keyUsageCount (m : usage_map) (s : St) : St :=
  mkSt m (account s) (videos s) (scratch s) (submitted s) (status_queries s)
    (clock s) (usage_updates s).
Definition set_account (a : option Account) (s : St) : St :=
  mkSt (keyUsageCount s) a (videos s) (scratch s) (submitted s) (status_queries s)
    (clock s) (usage_updates s).
Definition set_videos (v : list VideoRecord) (s : St) : St :=
  mkSt (keyUsageCount s) (account s) v (scratch s) (submitted s) (status_queries s)
    (clock s) (usage_updates s).
Definition set_scratch (f : gset string) (s : St) : St :=
  mkSt (keyUsageCount s) (account s) (videos s) f (submitted s) (status_queries s)
    (clock s) (usage_updates s).
Definition set_submitted (d : list Dims) (s : St) : St :=
  mkSt (keyUsageCount s) (account s) (videos s) (scratch s) d (status_queries s)
    (clock s) (usage_updates s).
Definition set_status_queries (n : nat) (s : St) : St :=
  mkSt (keyUsageCount s) (account s) (videos s) (scratch s) (submitted s) n
    (clock s) (usage_updates s).
Definition set_clock (t : Z) (s : St) : St :=
  mkSt (keyUsageCount s) (account s) (videos s) (scratch s) (submitted s)
    (status_queries s) t (usage_updates s).
Definition set_usage_updates (n : nat) (s : St) : St :=
  mkSt (keyUsageCount s) (account s) (videos s) (scratch s) (submitted s)
    (status_queries s) (clock s) n.

(* ================================================================= *)
(** ** The handler's monad: state, early [return], and [throw] *)

Inductive outcome (A : Type) :=
| Cont (a : A)
| Done (r : response)
| Throw (e : js_error).
Arguments Cont {A} a.
Arguments Done {A} r.
Arguments Throw {A} e.

Definition M (A : Type) : Type := St -> outcome A * St.

Global Instance M_ret : MRet M := fun A a s => (Cont a, s).
Global Instance M_bind : MBind M := fun A B f m s =>
  match m s with
  | (Cont a, s') => f a s'
  | (Done r, s') => (Done r, s')
  | (Throw e, s') => (Throw e, s')
  end.

Definition get : M St := fun s => (Cont s, s).
Definition modify (f : St -> St) : M unit := fun s => (Cont tt, f s).
Definition finish {A} (r : response) : M A := fun s => (Done r, s).
Definition throw {A} (e : js_error) : M A := fun s => (Throw e, s).

(** [try { body } catch (e) { handler }] *)
Definition try_catch {A} (body : M A) (handler : js_error -> M A) : M A :=
  fun s =>
    match body s with
    | (Throw e, s') => handler e s'
    | r => r
    end.

(* ================================================================= *)
(** ** Operations *)

Section Pipeline.

Variable w : World.

(** [checkVideoLimits] (limits.js): [ret tt] is [next()]. *)
Definition checkVideoLimits : M unit :=
  match w_user w with
  | None => finish AuthRequired
  | Some _ =>
      if w_read_ok w then
        s ← get;
        (* const userCredits = userData?.credits || 0 *)
        let userCredits :=
          match account s with Some a => credits a | None => 0 end in
        if decide (userCredits < CREDITS_PER_VIDEO) then
          finish (InsufficientCredits userCredits CREDITS_PER_VIDEO upgradeOptions)
        else mret tt
      else finish CreditCheckFailed
  end.

(** The atomic increments of [updateUsage(userId, 'video')];
    [lastVideoGenerated] gets the server timestamp [now]. *)
Definition video_usage_increment (now : Z) (a : Account) : Account :=
  mkAccount (credits a - CREDITS_PER_VIDEO) (creditsUsed a + CREDITS_PER_VIDEO)
    (videosGenerated a + 1) (Some now).

(** [updateUsage(userId, 'video')]: a failed [update] (for instance on a
    missing document) is caught and logged. *)
Definition updateUsage_video : M unit :=
  s ← get;
  modify (set_usage_updates (S (usage_updates s)));;
  if w_update_ok w then
    modify (set_account (option_map (video_usage_increment (clock s)) (account s)))
  else mret tt.

(** [getNextHeyGenKey()] on the global counter map. *)
Definition acquire_key : M (option string) :=
  s ← get;
  let '(key, m) := getNextHeyGenKey (HEYGEN_KEYS w) (keyUsageCount s) in
  modify (set_keyUsageCount m);;
  mret key.

(** Step 2: the dimension [switch]. *)
Definition select_dimensions (customDimensions : option Dims) (orientation : string)
  : Dims :=
  match customDimensions with
  | Some d => d
  | None =>
      if decide (orientation = "portrait") then mkDims 720 1280
      else if decide (orientation = "square") then mkDims 1080 1080
      else mkDims 1280 720          (* case 'landscape': default: *)
  end.

(** Step 3: [axios.post('.../v2/video/generate', { dimension, ... })]. *)
Definition heygen_generate (dimensions : Dims) : M string :=
  s ← get;
  modify (set_submitted (submitted s ++ [dimensions]));;
  match w_generate w with
  | inl e => throw e
  | inr videoId => mret videoId
  end.

Definition maxAttempts : nat := 60.

(** [await new Promise(resolve => setTimeout(resolve, 5000))] *)
Definition wait_5s : M unit :=
  s ← get; modify (set_clock (clock s + 5000)).

(** [axios.get('.../video_status.get?video_id=..')] at attempt [attempts]. *)
Definition video_status_get (attempts : nat) : M (string * string) :=
  s ← get;
  modify (set_status_queries (S (status_queries s)));;
  match w_poll w attempts with
  | PollStatus status video_url => mret (status, video_url)
  | PollRaises e => throw e
  end.

(** The [try] block of one poll: [Some url] is [videoUrl = ...; break]. *)
Definition poll_once (attempts : nat) : M (option string) :=
  st ← video_status_get attempts;
  let '(status, video_url) := st in
  if decide (status = "completed") then mret (Some video_url)
  else if decide (status = "failed") then
    throw (PlainError "HeyGen video generation failed")
  else mret None.

(** The [while (!videoUrl && attempts < maxAttempts)] loop; [videoUrl] is
    [null] until the [break], and a falsy [videoUrl] is [""]. The [fuel]
    argument only makes the recursion structural: it is called with
    [maxAttempts] and the loop guard ends the loop first. *)
Fixpoint poll_loop (fuel attempts : nat) : M string :=
  match fuel with
  | O => mret ""
  | S fuel' =>
      if decide (attempts < maxAttempts)%nat then
        wait_5s;;
        r ← try_catch (poll_once attempts) (fun _pollError => mret None);
        match r with
        | Some videoUrl => mret videoUrl
        | None => poll_loop fuel' (S attempts)
        end
      else mret ""
  end.

(** Step 4: stream the video into [tempVideoPath]. *)
Definition download_video : M unit :=
  match w_download w with
  | DownloadGetFails e => throw e
  | DownloadWriteFails e =>
      s ← get; modify (set_scratch ({[ w_tempVideoPath w ]} ∪ scratch s));; throw e
  | DownloadOk =>
      s ← get; modify (set_scratch ({[ w_tempVideoPath w ]} ∪ scratch s))
  end.

(** Step 5: [removeWatermark(tempVideoPath, cleanVideoPath)]; it only runs
    ffmpeg and deletes no file. *)
Definition removeWatermark : M unit :=
  match w_ffmpeg w with
  | FfmpegOk =>
      s ← get; modify (set_scratch ({[ w_cleanVideoPath w ]} ∪ scratch s))
  | FfmpegFails partial e =>
      s ← get;
      modify (set_scratch (if partial then {[ w_cleanVideoPath w ]} ∪ scratch s
                           else scratch s));;
      throw e
  end.

(** Step 6: [uploadToCatbox]; any error is rethrown as a plain [Error]. *)
Definition uploadToCatbox : M string :=
  match w_catbox w with
  | inl _ => throw (PlainError "Failed to upload video to Catbox")
  | inr url => mret url
  end.

(** Step 7: [storeVideoUrl]. *)
Definition storeVideoUrl (mk : string -> VideoRecord) : M string :=
  match w_store w with
  | inl e => throw e
  | inr docId =>
      s ← get; modify (set_videos (videos s ++ [mk docId]));; mret docId
  end.

(** [fs.removeSync(path)] *)
Definition removeSync (path : string) : M unit :=
  s ← get; modify (set_scratch (scratch s ∖ {[ path ]})).

Definition default_voice : string := "1bd001e7e50f421d891986aad5158bc8".

(** The [try] block of the route handler. *)
Definition generate_body (u : User) (req : Request) : M unit :=
  let script := req_script req in
  let avatar := req_avatar req in
  let voice := default default_voice (req_voice req) in
  let orientation := default "landscape" (req_orientation req) in
  if decide (script = "" \/ avatar = "") then finish BadRequest else
  apiKey ← acquire_key;
  match apiKey with
  | None | Some "" => finish NoApiKeys
  | Some _ =>
    let dimensions := select_dimensions (req_customDimensions req) orientation in
    videoId ← heygen_generate dimensions;
    videoUrl ← poll_loop maxAttempts 0;
    if decide (videoUrl = "") then finish GenerationTimeout else
    download_video;;
    removeWatermark;;
    catboxUrl ← uploadToCatbox;
    storedVideoId ← storeVideoUrl (fun docId =>
      mkVideoRecord docId (uid u) videoUrl catboxUrl script avatar voice
        orientation dimensions "completed");
    updateUsage_video;;
    removeSync (w_tempVideoPath w);;
    removeSync (w_cleanVideoPath w);;
    finish (Success storedVideoId catboxUrl)
  end.

(** The [catch (error)] block of the route handler. *)
Definition generate_catch (e : js_error) : M unit :=
  match e with
  | HttpError status => finish (HeyGenApiError status)
  | PlainError message => finish (InternalError message)
  end.

(** [app.post('/api/generate-video', verifyToken, checkVideoLimits, handler)]
    for an authenticated request. *)
Definition generate_video (req : Request) : M unit :=
  checkVideoLimits;;
  match w_user w with
  | None => finish AuthRequired
  | Some u => try_catch (generate_body u req) generate_catch
  end.

(** The response sent (every path of the route sends one) and the final
    state. *)
Definition run_generate (req : Request) (s : St) : option response * St :=
  match generate_video req s with
  | (Done r, s') => (Some r, s')
  | (_, s') => (None, s')
  end.

End Pipeline.

(* ================================================================= *)
(** ** The watermark crop on frames *)

(** A decoded frame: its size and its pixels, indexed by column and row. *)
Record Frame := mkFrame { fw : Z; fh : Z; pixel : Z -> Z -> Z }.

(** The filter ['crop=iw-150:ih-80:0:0'] of [removeWatermark], evaluated
    on the input size: output width, output height, x, y. *)
Definition watermark_crop (iw ih : Z) : Z * Z * Z * Z := (iw - 150, ih - 80, 0, 0).

(** ffmpeg's crop filter (libavfilter, not code of this repository): an
    output size that is non-positive or larger than the input is rejected
    (the filter fails to configure); otherwise the output pixel [(i, j)] is
    the input pixel [(x + i, y + j)]. The chroma rounding of odd sizes is
    not modelled. *)
Definition ffmpeg_crop (params : Z * Z * Z * Z) (f : Frame) : option Frame :=
  let '(ow, oh, x, y) := params in
  if decide (0 < ow <= fw f /\ 0 < oh <= fh f) then
    Some (mkFrame ow oh (fun i j => pixel f (x + i) (y + j)))
  else None.

(** [removeWatermark] on one frame: [None] is the ffmpeg ['error'] event. *)
Definition removeWatermark_frame (f : Frame) : option Frame :=
  ffmpeg_crop (watermark_crop (fw f) (fh f)) f.

(** A poll answer that is neither [completed] nor [failed]: a status such
    as [processing] or [waiting], or a query that raises. *)
Definition non_terminal (r : poll_response) : Prop :=
  match r with
  | PollStatus status _ => status <> "completed" /\ status <> "failed"
  | PollRaises _ => True
  end.

(** Answers sent before any scratch file is created. *)
Definition ends_before_download (rsp : response) : Prop :=
  match rsp with
  | AuthRequired | InsufficientCredits _ _ _ | CreditCheckFailed | BadRequest
  | NoApiKeys | GenerationTimeout => True
  | _ => False
  end.

(** The balance [checkVideoLimits] reads: [userData?.credits || 0]. *)
Definition balance (s : St) : Z :=
  match account s with Some a => credits a | None => 0 end.

(* ================================================================= *)
(** ** Sample inputs *)

Definition sample_world (polls : nat -> poll_response) : World :=
  mkWorld (Some (mkUser "u1" "u1@example.com")) true ["k1"; "k2"]
    (inr "vid1") polls DownloadOk FfmpegOk
    (inr "https://files.catbox.moe/abc.mp4") (inr "doc1") true
    "outputs/temp-1.mp4" "outputs/clean-1.mp4".

Definition sample_state (c : Z) : St :=
  mkSt ∅ (Some (mkAccount c 0 0 None)) [] ∅ [] 0 0 0.

Definition sample_request : Request :=
  mkRequest "Hello there" "Abigail_expressive_2024112501" None None None.

(** The provider answers [completed] on poll attempt 3. *)
Definition completed_on_third (n : nat) : poll_response :=
  if decide (n = 2%nat) then PollStatus "completed" "https://heygen.example/v.mp4"
  else PollStatus "processing" "".

Definition always_status (status : string) (n : nat) : poll_response :=
  PollStatus status "".

(** [failed] on the first poll, [completed] afterwards. *)
Definition failed_then_completed (n : nat) : poll_response :=
  if decide (n = 0%nat) then PollStatus "failed" ""
  else PollStatus "completed" "https://heygen.example/v.mp4".

(** The sample world with ffmpeg failing. *)
Definition ffmpeg_failing_world : World :=
  mkWorld (Some (mkUser "u1" "u1@example.com")) true ["k1"; "k2"]
    (inr "vid1") completed_on_third DownloadOk
    (FfmpegFails false (PlainError "ffmpeg exited with code 1"))
    (inr "https://files.catbox.moe/abc.mp4") (inr "doc1") true
    "outputs/temp-1.mp4" "outputs/clean-1.mp4".

Definition custom_orientation_request : Request :=
  mkRequest "Hello there" "Abigail_expressive_2024112501" None (Some "custom") None.

(* ================================================================= *)
(** ** The key pool read from the environment *)

(** [String.prototype.split] on a one-character separator: the piece
    being built and the pieces after it. *)
Fixpoint split_char (sep : ascii) (s : string) : string * list string :=
  match s with
  | EmptyString => (""%string, [])
  | String c rest =>
      let '(piece, pieces) := split_char sep rest in
      if decide (c = sep) then (""%string, piece :: pieces) else (String c piece, pieces)
  end.

(** [s.split(sep)] for a one-character [sep]: [""] gives [[""]]. *)
Definition js_split_char (sep : ascii) (s : string) : list string :=
  let '(piece, pieces) := split_char sep s in piece :: pieces.

(** [const HEYGEN_KEYS = process.env.HEYGEN_KEYS?.split(',') || [];]
    ([None] is an unset variable). *)
Definition HEYGEN_KEYS_of_env (HEYGEN_KEYS_env : option string) : list string :=
  match HEYGEN_KEYS_env with
  | Some v => js_split_char ","%char v
  | None => []
  end.

(** The sample world with the key pool read from [HEYGEN_KEYS]. *)
Definition env_world (env : option string) : World :=
  mkWorld (Some (mkUser "u1" "u1@example.com")) true (HEYGEN_KEYS_of_env env)
    (inr "vid1") completed_on_third DownloadOk FfmpegOk
    (inr "https://files.catbox.moe/abc.mp4") (inr "doc1") true
    "outputs/temp-1.mp4" "outputs/clean-1.mp4".

Local Set Warnings "-register-all".
(** A JSON value. *)
Inductive json :=
| JNull
| JBool (b : bool)
| JNum (n : Z)
| JStr (s : string)
| JArr (items : list json)
| JObj (fields : list (string * json)).

(** Induction over nested arrays and objects. *)
Definition json_ind' (P : json -> Prop)
  (Hnull : P JNull) (Hbool : forall b, P (JBool b)) (Hnum : forall n, P (JNum n))
  (Hstr : forall s, P (JStr s))
  (Harr : forall items, Forall P items -> P (JArr items))
  (Hobj : forall fields, Forall (fun kv => P (snd kv)) fields -> P (JObj fields)) :
  forall j, P j :=
  fix go j :=
    match j with
    | JNull => Hnull
    | JBool b => Hbool b
    | JNum n => Hnum n
    | JStr s => Hstr s
    | JArr items =>
        Harr items ((fix go_l (l : list json) : Forall P l :=
                      match l with
                      | [] => Forall_nil_2 _
                      | x :: l' => Forall_cons_2 _ _ _ (go x) (go_l l')
                      end) items)
    | JObj fields =>
        Hobj fields ((fix go_f (l : list (string * json)) : Forall (fun kv => P (snd kv)) l :=
                      match l with
                      | [] => Forall_nil_2 _
                      | kv :: l' => Forall_cons_2 _ _ _ (go (snd kv)) (go_f l')
                      end) fields)
    end.

(** ASCII lower-casing, the case folding of a regular expression's [i] flag
    on ASCII text. *)
Definition lower_char (c : ascii) : ascii :=
  let n := nat_of_ascii c in
  if (65 <=? n)%nat && (n <=? 90)%nat then ascii_of_nat (n + 32) else c.

Fixpoint lower (s : string) : string :=
  match s with
  | EmptyString => EmptyString
  | String c s' => String (lower_char c) (lower s')
  end.

(** [pat] occurs in [s] (a literal pattern without anchors). *)
Fixpoint contains (pat s : string) : bool :=
  String.prefix pat s ||
  match s with
  | EmptyString => false
  | String _ s' => contains pat s'
  end.

(** [/pat/i.test(s)] for a literal [pat]. *)
Definition test_ci (pat s : string) : bool := contains (lower pat) (lower s).

(** The alternatives of the first regular expression of [sqlPatterns]:
    a quote, two dashes, a semicolon, a bar, a star. *)
Definition sqlPatterns_chars : list string := ["'"; "--"; ";"; "|"; "*"].
(** The alternatives of [sqlPatterns[1]]. *)
Definition sqlPatterns_words : list string :=
  ["union"; "select"; "insert"; "delete"; "update"; "drop"; "create"; "alter";
   "exec"; "execute"].
(** The literal patterns of [noSqlPatterns] ([\$] is a literal [$]). *)
Definition noSqlPatterns : list string :=
  ["$where"; "$ne"; "$in"; "$nin"; "$gt"; "$lt"; "$regex"; "$exists"; "$elemMatch"].

(** [[...sqlPatterns, ...noSqlPatterns].some(pattern => pattern.test(cleaned))] *)
Definition isMalicious (cleaned : string) : bool :=
  existsb (fun pat => test_ci pat cleaned)
    (sqlPatterns_chars ++ sqlPatterns_words ++ noSqlPatterns).

(** The characters kept by [key.replace(/[^a-zA-Z0-9_]/g, '')]. *)
Definition key_char (c : ascii) : bool :=
  let n := nat_of_ascii c in
  ((48 <=? n)%nat && (n <=? 57)%nat) || ((65 <=? n)%nat && (n <=? 90)%nat) ||
  ((97 <=? n)%nat && (n <=? 122)%nat) || (n =? 95)%nat.

(** [const cleanKey = key.replace(/[^a-zA-Z0-9_]/g, '');] *)
Fixpoint cleanKey (key : string) : string :=
  match key with
  | EmptyString => EmptyString
  | String c key' => if key_char c then String c (cleanKey key') else cleanKey key'
  end.

(** Property assignment on a plain object kept as its list of own
    properties: an existing key keeps its place. (Integer-like keys are
    enumerated first by JS; the properties below do not depend on the
    order.) *)
Fixpoint assign (obj : list (string * json)) (k : string) (v : json) : list (string * json) :=
  match obj with
  | [] => [(k, v)]
  | (k', v') :: rest =>
      if decide (k' = k) then (k, v) :: rest else (k', v') :: assign rest k v
  end.

(** [sanitized[k] = v] on an object literal: assigning to [__proto__]
    changes the prototype (or, for a primitive, does nothing) and creates
    no own property. *)
Definition set_property (obj : list (string * json)) (k : string) (v : json)
  : list (string * json) :=
  if decide (k = "__proto__") then obj else assign obj k v.

(** [obj.map(item => f(item))] where [f] may throw. *)
Fixpoint sanitize_items (f : json -> option json) (l : list json) : option (list json) :=
  match l with
  | [] => Some []
  | x :: l' =>
      match f x with
      | None => None
      | Some y => match sanitize_items f l' with None => None | Some ys => Some (y :: ys) end
      end
  end.

(** [for (let key in obj) sanitized[cleanKey] = f(obj[key])] *)
Fixpoint sanitize_fields (f : json -> option json) (sanitized : list (string * json))
    (l : list (string * json)) : option (list (string * json)) :=
  match l with
  | [] => Some sanitized
  | (key, v) :: l' =>
      match f v with
      | None => None
      | Some v' => sanitize_fields f (set_property sanitized (cleanKey key) v') l'
      end
  end.

(** [deepSanitize] of [sanitizeInput]; [xss] is the [xss] package with the
    options of the source, [None] is the [throw new Error('Invalid input
    detected')]. *)
Section Sanitize.
Variable xss : string -> string.

Fixpoint deepSanitize (obj : json) : option json :=
  match obj with
  | JStr s =>
      let cleaned := xss s in
      if isMalicious cleaned then None else Some (JStr cleaned)
  | JArr items =>
      match sanitize_items deepSanitize items with None => None | Some ys => Some (JArr ys) end
  | JObj fields =>
      match sanitize_fields deepSanitize [] fields with
      | None => None
      | Some o => Some (JObj o)
      end
  | other => Some other
  end.

End Sanitize.

(** Every character of [s] satisfies [p]. *)
Fixpoint string_forall (p : ascii -> bool) (s : string) : bool :=
  match s with
  | EmptyString => true
  | String c s' => p c && string_forall p s'
  end.

Fixpoint list_all {A} (P : A -> Prop) (l : list A) : Prop :=
  match l with [] => True | x :: l' => P x /\ list_all P l' end.

Fixpoint list_any {A} (P : A -> Prop) (l : list A) : Prop :=
  match l with [] => False | x :: l' => P x \/ list_any P l' end.

(** Every object key, at any depth, is made of [a-zA-Z0-9_] and is not
    [__proto__]. *)
Fixpoint keys_clean (j : json) : Prop :=
  match j with
  | JArr items => list_all keys_clean items
  | JObj fields =>
      list_all (fun '(k, v) =>
                  string_forall key_char k = true /\ k <> "__proto__" /\ keys_clean v) fields
  | _ => True
  end.

(** The string [s] occurs as a value somewhere in [j]. *)
Fixpoint occurs_string (s : string) (j : json) : Prop :=
  match j with
  | JStr s' => s' = s
  | JArr items => list_any (occurs_string s) items
  | JObj fields => list_any (fun '(_, v) => occurs_string s v) fields
  | _ => False
  end.

(* ================================================================= *)
(** ** [verifyToken] and [userRateLimit] (middleware/auth.js, src/unnamed/part_000) *)

(** [s.split(sep)] for a non-empty separator [sep]; [fuel] bounds the
    recursion by the length of [s]. *)
Fixpoint split_str_go (fuel : nat) (sep s : string) : list string :=
  match fuel with
  | O => [s]
  | S fuel' =>
      match s with
      | EmptyString => [""%string]
      | String c rest =>
          if String.prefix sep s then
            ""%string :: split_str_go fuel' sep (String.substring (String.length sep) (String.length s) s)
          else
            match split_str_go fuel' sep rest with
            | p :: ps => String c p :: ps
            | [] => [String c ""]
            end
      end
  end.

(** [s.split(sep)], [sep] non-empty. *)
Definition js_split_str (sep s : string) : list string :=
  split_str_go (S (String.length s)) sep s.

(** [req.headers.authorization?.split('Bearer ')[1]] *)
Definition bearer_token (authorization : option string) : option string :=
  match authorization with
  | None => None
  | Some header => js_split_str "Bearer " header !! 1%nat
  end.

(** The two 401 answers of [verifyToken]. *)
Inductive auth_answer :=
| TokenMissing
| TokenInvalid.

(** The [users/{uid}] document [verifyToken] creates: no [credits] field,
    so [userData?.credits || 0] reads [0]. *)
Definition new_user_account : Account := mkAccount 0 0 0 None.

(** The other fields of [users/{uid}] that [verifyToken] writes: [plan],
    [createdAt] and [lastLogin] (server timestamps as [Z]; [None] is an
    absent field). [uid], [email], [displayName], [photoURL] and [isActive]
    are written too and read by no modelled route. *)
Record Profile := mkProfile {
  pr_plan : option string;
  pr_createdAt : option Z;
  pr_lastLogin : option Z
}.

(** [verifyToken]: [verifyIdToken] is [admin.auth().verifyIdToken] ([None]
    rejects), [firestore_ok = false] a failing Firestore call (no write is
    done), [now] the server timestamp; [inr] is [next()] with [req.user].
    The document exists iff [account s] is [Some]: a missing one is [set]
    with the new-user fields, an existing one gets [update({ lastLogin })]. *)
Definition verifyToken (authorization : option string)
    (verifyIdToken : string -> option User) (firestore_ok : bool) (now : Z)
    (s : St) (p : Profile) : (auth_answer + User) * St * Profile :=
  match bearer_token authorization with
  | None | Some "" => (inl TokenMissing, s, p)
  | Some token =>
      match verifyIdToken token with
      | None => (inl TokenInvalid, s, p)
      | Some decodedToken =>
          if firestore_ok then
            match account s with
            | None =>
                (inr decodedToken, set_account (Some new_user_account) s,
                 mkProfile (Some "free") (Some now) (Some now))
            | Some _ =>
                (inr decodedToken, s, mkProfile (pr_plan p) (pr_createdAt p) (Some now))
            end
          else (inl TokenInvalid, s, p)
      end
  end.

(** The [requests] map of [userRateLimit]: user id to request times. *)
Abbreviation rate_map := (gmap string (list Z)).

(** One call of the middleware returned by [userRateLimit(maxRequests,
    windowMs)] at time [now]; [false] is the 429 answer. *)
Definition userRateLimit (maxRequests windowMs : Z) (requests : rate_map)
    (user : option string) (now : Z) : bool * rate_map :=
  match user with
  | None => (true, requests)
  | Some userId =>
      let windowStart := now - windowMs in
      let requests :=
        match requests !! userId with
        | Some _ => requests
        | None => <[userId := []]> requests
        end in
      let userRequests := default [] (requests !! userId) in
      let validRequests := filter (fun time => windowStart < time) userRequests in
      if decide (maxRequests <= Z.of_nat (length validRequests)) then (false, requests)
      else (true, <[userId := validRequests ++ [now]]> requests)
  end.

(** A sequence of requests (user, time) through one middleware instance;
    the result is the requests let through. *)
Fixpoint rate_limit_run (maxRequests windowMs : Z) (requests : rate_map)
    (trace : list (option string * Z)) : list (option string * Z) :=
  match trace with
  | [] => []
  | (user, now) :: rest =>
      let '(ok, requests') := userRateLimit maxRequests windowMs requests user now in
      if ok then (user, now) :: rate_limit_run maxRequests windowMs requests' rest
      else rate_limit_run maxRequests windowMs requests' rest
  end.

(** The times of the requests of user [u]. *)
Definition times_of (u : string) (events : list (option string * Z)) : list Z :=
  map snd (filter (fun e => fst e = Some u) events).

Fixpoint nondecreasing (l : list Z) : Prop :=
  match l with
  | x :: ((y :: _) as l') => x <= y /\ nondecreasing l'
  | _ => True
  end.

(** The number of times in the window [(t - windowMs, t]]. *)
Definition in_window (windowMs t : Z) (l : list Z) : nat :=
  length (filter (fun a => t - windowMs < a <= t) l).

(** The list stored for [u] ([[]] when absent). *)
Definition user_list (u : string) (R : rate_map) : list Z := default [] (R !! u).

(** The invariant of [rate_limit_run] at time [T]: the stored list agrees
    with the requests let through ([acc]) on every window ending at [T] or
    later, and no window holds more than [maxRequests] of them. *)
Definition rl_inv (maxRequests windowMs : Z) (u : string) (R : rate_map) (acc : list Z) (T : Z)
  : Prop :=
  (forall tau, T <= tau ->
     filter (fun x => tau - windowMs < x) (user_list u R) =
     filter (fun x => tau - windowMs < x) acc) /\
  (forall a, a ∈ acc -> a <= T) /\
  (forall t, Z.of_nat (in_window windowMs t acc) <= Z.max 0 maxRequests).

(* ================================================================= *)
(** ** Pricing routes (src/unnamed/part_001, the pricing router) *)

(** One document of the [transactions] collection. *)
Record Purchase := mkPurchase {
  tx_userId : string;
  tx_credits : Z;
  tx_amount : Z;
  tx_orderId : option string;
  tx_paymentId : option string;
  tx_createdAt : Z
}.

(** The purchase fields of [users/{uid}] and the [transactions] collection. *)
Record Ledger := mkLedger {
  totalSpent : Z;
  lastPurchase : option Z;
  transactions : list Purchase
}.

(** Outcomes of the Firestore calls of [/add-credits] and the time. *)
Record PricingWorld := mkPricingWorld {
  pw_update_ok : bool;
  pw_add_ok : bool;
  pw_read_ok : bool;
  pw_now : Z
}.

(** Answers of [/add-credits]: 400, 500, or the success body. *)
Inductive add_answer :=
| AddInvalid
| AddFailed
| AddOk (creditsAdded totalCredits amountPaid : Z) (orderId paymentId : option string).

(** [amount || credits * 4] *)
Definition amount_or (amount : option Z) (c : Z) : Z :=
  match amount with
  | Some a => if decide (a = 0) then c * 4 else a
  | None => c * 4
  end.

(** [router.post('/add-credits')]: the [update] of the user document, the
    [transactions.add] and the re-read, each of which may fail into the
    catch (500); a missing document makes [update] throw. *)
Definition add_credits (pw : PricingWorld) (u : User) (body_credits : option Z)
    (orderId paymentId : option string) (amount : option Z) (s : St) (l : Ledger)
  : add_answer * St * Ledger :=
  match body_credits with
  | None => (AddInvalid, s, l)
  | Some c =>
      if decide (c = 0 \/ c < 20 \/ c > 500) then (AddInvalid, s, l) else
      let amt := amount_or amount c in
      match account s with
      | None => (AddFailed, s, l)
      | Some a =>
          if pw_update_ok pw then
            let s1 := set_account (Some (mkAccount (credits a + c) (creditsUsed a)
                        (videosGenerated a) (lastVideoGenerated a))) s in
            let l1 := mkLedger (totalSpent l + amt) (Some (pw_now pw)) (transactions l) in
            if pw_add_ok pw then
              let l2 := mkLedger (totalSpent l1) (lastPurchase l1)
                          (transactions l1 ++ [mkPurchase (uid u) c amt orderId paymentId (pw_now pw)]) in
              if pw_read_ok pw then (AddOk c (credits a + c) amt orderId paymentId, s1, l2)
              else (AddFailed, s1, l2)
            else (AddFailed, s1, l1)
          else (AddFailed, s, l)
      end
  end.

(** Answers of [/buy-credits]. *)
Inductive buy_answer :=
| BuyMissing
| BuyBelowMin
| BuyAboveMax
| BuyQuote (credits amount pricePerCredit : Z) (savings : option Z).

(** [Math.ceil(a / b)] for integers, [b > 0]. *)
Definition js_ceil_div (a b : Z) : Z := - ((- a) / b).

(** [router.post('/buy-credits')] for an integer [credits] ([None]: absent
    or not a number). *)
Definition buy_credits (body_credits : option Z) : buy_answer :=
  match body_credits with
  | None => BuyMissing
  | Some c =>
      if decide (c = 0) then BuyMissing
      else if decide (c < 20) then BuyBelowMin
      else if decide (c > 500) then BuyAboveMax
      else
        let pricePerCredit := 4 in
        let totalAmount := c * pricePerCredit in
        let individualPrice := js_ceil_div c 20 * 80 in
        let savings := individualPrice - totalAmount in
        BuyQuote c totalAmount pricePerCredit
          (if decide (savings > 0) then Some savings else None)
  end.

(** Answers of [/credits]. *)
Inductive balance_answer :=
| BalanceNotFound
| BalanceFailed
| Balance (credits creditsUsed videosGenerated creditsPerVideo possibleVideos : Z).

(** [router.get('/credits')] *)
Definition credits_balance (read_ok : bool) (s : St) : balance_answer :=
  if read_ok then
    match account s with
    | None => BalanceNotFound
    | Some a => Balance (credits a) (creditsUsed a) (videosGenerated a) 20 (credits a / 20)
    end
  else BalanceFailed.

(** The [possibleVideos] field of a [/credits] answer. *)
Definition possibleVideos (b : balance_answer) : option Z :=
  match b with Balance _ _ _ _ p => Some p | _ => None end.

(** The values [features.videosPerMonth] (never set: [undefined]) and
    [features.scriptsPerMonth] (['unlimited']) take, and [0]. *)
Inductive feature_value :=
| FUndefined
| FUnlimited
| FZero.

Record PlanFeatures := mkPlanFeatures {
  videosPerMonth : feature_value;
  scriptsPerMonth : feature_value
}.

Record Plan := mkPlan { plan_id : string; plan_name : string; plan_price : Z; features : PlanFeatures }.

(** [PRICING_PLANS]: the fields [check-limits] reads. *)
Definition plan_free : Plan :=
  mkPlan "free" "Free Account" 0 (mkPlanFeatures FUndefined FUnlimited).
Definition plan_basic : Plan :=
  mkPlan "basic" "Basic Plan" 899 (mkPlanFeatures FUndefined FUnlimited).
Definition plan_pro : Plan :=
  mkPlan "pro" "Pro Plan" 2999 (mkPlanFeatures FUndefined FUnlimited).

(** The properties every object literal inherits from [Object.prototype]. *)
Definition object_prototype_members : list string :=
  ["constructor"; "__defineGetter__"; "__defineSetter__"; "hasOwnProperty";
   "__lookupGetter__"; "__lookupSetter__"; "isPrototypeOf"; "propertyIsEnumerable";
   "toString"; "valueOf"; "__proto__"; "toLocaleString"].

(** What [PRICING_PLANS[key]] can be: a plan, or an inherited member. *)
Inductive plan_value :=
| PlanObj (p : Plan)
| ProtoMember (key : string).

(** [PRICING_PLANS[key]]; [None] is [undefined]. *)
Definition PRICING_PLANS_get (key : string) : option plan_value :=
  if decide (key = "free") then Some (PlanObj plan_free)
  else if decide (key = "basic") then Some (PlanObj plan_basic)
  else if decide (key = "pro") then Some (PlanObj plan_pro)
  else if decide (key ∈ object_prototype_members) then Some (ProtoMember key)
  else None.

(** [.name] of a plan or of an inherited member (a function's name;
    [Object.prototype] has none). *)
Definition plan_value_name (v : plan_value) : option string :=
  match v with
  | PlanObj p => Some (plan_name p)
  | ProtoMember key =>
      if decide (key = "constructor") then Some "Object"
      else if decide (key = "__proto__") then None
      else Some key
  end.

(** JS numbers as far as [check-limits] computes with them. *)
Inductive jsnum :=
| JNaN
| JInt (z : Z).

(** [ToNumber] of a feature value. *)
Definition to_number (v : feature_value) : jsnum :=
  match v with
  | FUndefined => JNaN
  | FUnlimited => JNaN
  | FZero => JInt 0
  end.

Definition js_sub (x : jsnum) (n : Z) : jsnum :=
  match x with JNaN => JNaN | JInt z => JInt (z - n) end.

Definition js_max0 (x : jsnum) : jsnum :=
  match x with JNaN => JNaN | JInt z => JInt (Z.max 0 z) end.

Definition js_gt0 (x : jsnum) : bool :=
  match x with JNaN => false | JInt z => bool_decide (0 < z) end.

(** Answers of [/check-limits]. *)
Inductive cl_answer :=
| CLFailed
| CLOk (canGenerate : bool) (remaining : jsnum) (limit : feature_value)
    (currentPlan : option string) (upgradeRequired : bool).

(** One branch of [check-limits]: the month query, then
    [limit - snapshot.size], [Math.max(0, ..)] and [remaining > 0]. An
    inherited member has no [features], so reading it throws. *)
Definition check_limits_branch (query_ok : bool) (current : plan_value)
    (select : PlanFeatures -> feature_value) (count : Z) : cl_answer :=
  if query_ok then
    match current with
    | ProtoMember _ => CLFailed
    | PlanObj p =>
        let limit := select (features p) in
        let remaining := js_max0 (js_sub (to_number limit) count) in
        let canGenerate := js_gt0 remaining in
        CLOk canGenerate remaining limit (Some (plan_name p)) (negb canGenerate)
    end
  else CLFailed.

(** [router.get('/check-limits')]: [userDoc] is [None] when the document
    does not exist ([userData.plan] throws), else the [plan] field. *)
Definition check_limits (read_ok query_ok : bool) (userDoc : option (option string))
    (type : option string) (videosCount scriptsCount : Z) : cl_answer :=
  if read_ok then
    match userDoc with
    | None => CLFailed
    | Some plan =>
        let current := default (PlanObj plan_free)
                         (PRICING_PLANS_get (default "undefined" plan)) in
        let type := default "video" type in
        if decide (type = "video") then
          check_limits_branch query_ok current videosPerMonth videosCount
        else if decide (type = "script") then
          check_limits_branch query_ok current scriptsPerMonth scriptsCount
        else CLOk false (JInt 0) FZero (plan_value_name current) true
    end
  else CLFailed.

(* ================================================================= *)
(** ** Templates, scripts, AI videos and uploads (src/unnamed/part_001) *)


(** An entry of [CUSTOM_TEMPLATES]. *)
Record Template := mkTemplate {
  tpl_id : string;
  tpl_name : string;
  tpl_category : string;
  tpl_description : string;
  recommended_avatar : string;
  recommended_voice : string;
  sample_script : string;
  tpl_orientation : string;
  tpl_duration : string
}.

Definition CUSTOM_TEMPLATES : list Template := [
  mkTemplate "business_presentation" "Business Presentation" "business"
    "Professional business presentation template"
    "Adriana_BizTalk_Front_public" "1bd001e7e50f421d891986aad5158bc8"
    "Welcome to our quarterly business review. Today I'll be presenting our key achievements and future strategies."
    "landscape" "60s";
  mkTemplate "social_media_post" "Social Media Content" "social"
    "Engaging social media video template"
    "Abigail_expressive_2024112501" "a04d81d19afd436db611060682276331"
    "Hey everyone! Welcome back to my channel. Today I have something amazing to share with you!"
    "portrait" "30s";
  mkTemplate "educational_content" "Educational Video" "education"
    "Clear and informative educational template"
    "Albert_public_3" "73c0b6a2e29d4d38aca41454bf58c955"
    "In today's lesson, we'll explore the fundamental concepts that will help you understand this topic better."
    "landscape" "90s";
  mkTemplate "product_demo" "Product Demonstration" "marketing"
    "Showcase your product effectively"
    "Aditya_public_4" "Qz5fqQAsvzEUvsQ2ugLH"
    "Let me show you how this amazing product can solve your everyday problems and make your life easier."
    "landscape" "45s";
  mkTemplate "hindi_content" "Hindi Content" "regional"
    "Hindi language content template"
    "Aiko_public" "e3e89b7996b94daebf8a1d6904a1bd11"
    "Namaste! Aaj main aapke saath kuch bahut important baatein share karne wala hun."
    "portrait" "60s";
  mkTemplate "testimonial" "Customer Testimonial" "marketing"
    "Authentic customer testimonial template"
    "Abigail_sitting_sofa_front" "VoCODBvSDQUgLCiN46zd"
    "I've been using this service for months now, and I can honestly say it has transformed my business."
    "square" "30s";
  mkTemplate "news_update" "News & Updates" "news"
    "Professional news and updates template"
    "Adriana_Business_Front_public" "b2ddcef2b1594794aa7f3a436d8cf8f2"
    "Good evening. Here are today's top stories and important updates you need to know about."
    "landscape" "120s";
  mkTemplate "motivational" "Motivational Content" "lifestyle"
    "Inspiring and motivational template"
    "Albert_public_2" "cef3bc4e0a84424cafcde6f2cf466c97"
    "Remember, every great achievement starts with a single step. Today is your day to take that step forward."
    "portrait" "45s"
].

(** [CUSTOM_TEMPLATES.find(t => t.id === templateId)] *)
Definition template_find (templateId : string) : option Template :=
  List.find (fun t => bool_decide (tpl_id t = templateId)) CUSTOM_TEMPLATES.

(** [req.body.customizations]: [null], or an object (absent fields [""]). *)
Inductive customizations :=
| CustNull
| CustObj (avatar voice : string).

(** Answers of the template route: 404, 503, 500, success. *)
Inductive tpl_answer :=
| TplNotFound
| TplNoApiKeys
| TplFailed
| TplStarted (videoId templateName orientation : string).

(** The dimension [if] chain of the template route. *)
Definition template_dimensions (orientation : string) : Dims :=
  if decide (orientation = "portrait") then mkDims 720 1280
  else if decide (orientation = "square") then mkDims 1080 1080
  else mkDims 1280 720.

(** [app.post('/api/template/:templateId/generate')]: no [verifyToken] and
    no [checkVideoLimits]. *)
Definition template_generate (w : World) (templateId : string) (script : string)
    (cust : customizations) (s : St) : tpl_answer * St :=
  match template_find templateId with
  | None => (TplNotFound, s)
  | Some template =>
      match cust with
      | CustNull => (TplFailed, s)
      | CustObj c_avatar c_voice =>
          let avatar := if decide (c_avatar = "") then recommended_avatar template else c_avatar in
          let voice := if decide (c_voice = "") then recommended_voice template else c_voice in
          let finalScript := if decide (script = "") then sample_script template else script in
          let dimensions := template_dimensions (tpl_orientation template) in
          let '(apiKey, m) := getNextHeyGenKey (HEYGEN_KEYS w) (keyUsageCount s) in
          let s1 := set_keyUsageCount m s in
          match apiKey with
          | None | Some "" => (TplNoApiKeys, s1)
          | Some _ =>
              match heygen_generate w dimensions s1 with
              | (Cont videoId, s2) =>
                  (TplStarted videoId (tpl_name template) (tpl_orientation template), s2)
              | (_, s2) => (TplFailed, s2)
              end
          end
      end
  end.

(** [SCRIPT_PROMPTS] *)
Definition SCRIPT_PROMPTS : list (string * string) := [
  ("business", "Create a professional business presentation script about {topic}. Make it engaging, informative, and suitable for a 45-60 second video. Include a strong opening, key points, and call to action.");
  ("social", "Write an engaging social media video script about {topic}. Make it trendy, relatable, and perfect for Instagram/TikTok. Keep it energetic and under 30 seconds. Include hooks and trending phrases.");
  ("educational", "Create an educational video script explaining {topic}. Make it clear, informative, and easy to understand. Structure it with introduction, main concepts, and conclusion. Suitable for 60-90 seconds.");
  ("marketing", "Write a compelling marketing video script for {topic}. Focus on benefits, create urgency, and include strong call-to-action. Make it persuasive and conversion-focused. 45-60 seconds ideal.");
  ("news", "Create a professional news-style script about {topic}. Make it factual, authoritative, and well-structured. Include key facts and maintain journalistic tone. 60-120 seconds.");
  ("motivational", "Write an inspiring motivational script about {topic}. Make it uplifting, powerful, and emotionally engaging. Include personal growth elements and actionable advice. 45-60 seconds.");
  ("hindi", "Create a Hindi script about {topic}. Make it natural, engaging, and culturally relevant. Use simple Hindi words mixed with English where appropriate. 45-60 seconds ke liye perfect.");
  ("custom", "Create a video script about {topic} with the following style and requirements: {customInstructions}. Make it engaging and suitable for video format.")
].

Definition business_prompt : string :=
  "Create a professional business presentation script about {topic}. Make it engaging, informative, and suitable for a 45-60 second video. Include a strong opening, key points, and call to action.".

(** [SCRIPT_PROMPTS[category] || SCRIPT_PROMPTS.business]: a string, or an
    inherited function (which has no [replace]). *)
Inductive prompt_lookup :=
| PromptTemplate (template : string)
| PromptNotString.

Definition SCRIPT_PROMPTS_get (category : string) : prompt_lookup :=
  match List.find (fun kv => bool_decide (kv.1 = category)) SCRIPT_PROMPTS with
  | Some (_, template) => PromptTemplate template
  | None =>
      if decide (category ∈ object_prototype_members) then PromptNotString
      else PromptTemplate business_prompt
  end.

(** [s.indexOf(search)] from position [i]. *)
Fixpoint index_of_go (search s : string) (i : nat) : option nat :=
  if String.prefix search s then Some i
  else match s with
       | EmptyString => None
       | String _ s' => index_of_go search s' (S i)
       end.

Definition index_of (search s : string) : option nat := index_of_go search s 0.

(** The [$] patterns of a replacement string (GetSubstitution without
    capture groups). *)
Fixpoint get_substitution (matched before after replacement : string) : string :=
  match replacement with
  | String "$" (String "$" r) => String "$" (get_substitution matched before after r)
  | String "$" (String "&" r) => (matched ++ get_substitution matched before after r)%string
  | String "$" (String "`" r) => (before ++ get_substitution matched before after r)%string
  | String "$" (String "'" r) => (after ++ get_substitution matched before after r)%string
  | String c r => String c (get_substitution matched before after r)
  | EmptyString => EmptyString
  end.

(** [s.replace(search, replacement)] with a string [search]: the first
    occurrence only. *)
Definition js_replace (s search replacement : string) : string :=
  match index_of search s with
  | None => s
  | Some p =>
      let before := String.substring 0 p s in
      let after := String.substring (p + String.length search) (String.length s) s in
      (before ++ get_substitution search before after replacement ++ after)%string
  end.

(** A newline. *)
Definition nl : string := String (ascii_of_nat 10) EmptyString.

(** The prompt of [/api/generate-script]; [None] when [promptTemplate]
    is not a string. *)
Definition script_prompt (category topic customInstructions duration language tone : string)
  : option string :=
  match SCRIPT_PROMPTS_get category with
  | PromptNotString => None
  | PromptTemplate promptTemplate =>
      let prompt := js_replace promptTemplate "{topic}" topic in
      let prompt :=
        if decide (category = "custom" /\ customInstructions <> "")
        then js_replace prompt "{customInstructions}" customInstructions else prompt in
      Some (prompt ++ nl ++ nl ++ "Additional requirements:" ++ nl ++
            "- Duration: " ++ duration ++ nl ++
            "- Language: " ++ language ++ nl ++
            "- Tone: " ++ tone ++ nl ++
            "- Make it suitable for AI avatar video" ++ nl ++
            "- Include natural pauses and emphasis" ++ nl ++
            "- Avoid complex words that are hard to pronounce" ++ nl ++
            "- Make it engaging from the first sentence")%string
  end.

(** [req.body] of [/api/generate-script]. *)
Record ScriptBody := mkScriptBody {
  sb_topic : string;
  sb_category : option string;
  sb_duration : option string;
  sb_language : option string;
  sb_customInstructions : option string;
  sb_tone : option string
}.

(** The Groq completion (per prompt; [""] for an empty answer) and the
    Firestore [add] calls of the script and AI routes. *)
Record GroqWorld := mkGroqWorld {
  groq_complete : string -> js_error + string;
  scripts_add : js_error + string;
  ai_videos_add : js_error + string
}.

(** Prompts sent to Groq, stored scripts, and [updateUsage(.., 'script')]
    calls. *)
Record ScriptSt := mkScriptSt {
  groq_prompts : list string;
  scripts : list (string * string);
  script_updates : nat
}.

(** Answers of [/api/generate-script]. *)
Inductive script_answer :=
| ScriptBadRequest
| ScriptGroqError (status : Z)
| ScriptFailed (message : string)
| ScriptOk (scriptId script : string) (wordCount : nat).

(** [app.post('/api/generate-script', verifyToken, checkScriptLimits, ..)]
    after the middleware. *)
Definition generate_script (gw : GroqWorld) (body : ScriptBody) (ss : ScriptSt)
  : script_answer * ScriptSt :=
  let topic := sb_topic body in
  let category := default "business" (sb_category body) in
  let duration := default "60s" (sb_duration body) in
  let language := default "english" (sb_language body) in
  let customInstructions := default "" (sb_customInstructions body) in
  let tone := default "professional" (sb_tone body) in
  if decide (topic = "") then (ScriptBadRequest, ss) else
  let catch (e : js_error) (ss' : ScriptSt) :=
    match e with
    | HttpError status => (ScriptGroqError status, ss')
    | PlainError message => (ScriptFailed message, ss')
    end in
  match script_prompt category topic customInstructions duration language tone with
  | None => catch (PlainError "promptTemplate.replace is not a function") ss
  | Some prompt =>
      let ss1 := mkScriptSt (groq_prompts ss ++ [prompt]) (scripts ss) (script_updates ss) in
      match groq_complete gw prompt with
      | inl e => catch e ss1
      | inr generatedScript =>
          if decide (generatedScript = "") then catch (PlainError "Failed to generate script") ss1
          else
            match scripts_add gw with
            | inl e => catch e ss1
            | inr scriptId =>
                let ss2 := mkScriptSt (groq_prompts ss1) (scripts ss1 ++ [(topic, generatedScript)])
                             (S (script_updates ss1)) in
                (ScriptOk scriptId generatedScript (length (js_split_char " "%char generatedScript)), ss2)
            end
      end
  end.

(** [req.body] of [/api/generate-video-with-ai]. *)
Record AiBody := mkAiBody {
  ab_topic : string;
  ab_category : option string;
  ab_avatar : string;
  ab_voice : string;
  ab_orientation : option string;
  ab_duration : option string;
  ab_language : option string;
  ab_tone : option string
}.

(** Answers of [/api/generate-video-with-ai]. *)
Inductive ai_answer :=
| AiMiddleware (r : response)
| AiBadRequest
| AiNoApiKeys
| AiFailed
| AiStarted (id videoId script : string).

(** The two sequential [if]s setting [dimensions]. *)
Definition ai_dimensions (orientation : string) : Dims :=
  let dimensions := mkDims 1280 720 in
  let dimensions := if decide (orientation = "portrait") then mkDims 720 1280 else dimensions in
  if decide (orientation = "square") then mkDims 1080 1080 else dimensions.

(** The prompt of the AI video route. *)
Definition ai_prompt (category topic duration language tone : string) : option string :=
  match SCRIPT_PROMPTS_get category with
  | PromptNotString => None
  | PromptTemplate promptTemplate =>
      Some (js_replace promptTemplate "{topic}" topic ++ nl ++ nl ++ "Requirements: " ++
            duration ++ ", " ++ language ++ ", " ++ tone ++ " tone, AI avatar suitable")%string
  end.

(** [app.post('/api/generate-video-with-ai', verifyToken, checkVideoLimits,
    checkScriptLimits, ..)]: every error ends in the 500 of the catch. *)
Definition generate_video_with_ai (w : World) (gw : GroqWorld) (body : AiBody)
    (s : St) (ss : ScriptSt) : ai_answer * St * ScriptSt :=
  match checkVideoLimits w s with
  | (Done r, s1) => (AiMiddleware r, s1, ss)
  | (Throw _, s1) => (AiFailed, s1, ss)
  | (Cont _, s1) =>
      match w_user w with
      | None => (AiMiddleware AuthRequired, s1, ss)
      | Some _ =>
          let topic := ab_topic body in
          let category := default "business" (ab_category body) in
          let avatar := ab_avatar body in
          let orientation := default "landscape" (ab_orientation body) in
          let duration := default "60s" (ab_duration body) in
          let language := default "english" (ab_language body) in
          let tone := default "professional" (ab_tone body) in
          if decide (topic = "" \/ avatar = "") then (AiBadRequest, s1, ss) else
          match ai_prompt category topic duration language tone with
          | None => (AiFailed, s1, ss)
          | Some prompt =>
              let ss1 := mkScriptSt (groq_prompts ss ++ [prompt]) (scripts ss) (script_updates ss) in
              match groq_complete gw prompt with
              | inl _ => (AiFailed, s1, ss1)
              | inr script =>
                  if decide (script = "") then (AiFailed, s1, ss1) else
                  let '(apiKey, m) := getNextHeyGenKey (HEYGEN_KEYS w) (keyUsageCount s1) in
                  let s2 := set_keyUsageCount m s1 in
                  match apiKey with
                  | None | Some "" => (AiNoApiKeys, s2, ss1)
                  | Some _ =>
                      match heygen_generate w (ai_dimensions orientation) s2 with
                      | (Cont videoId, s3) =>
                          match ai_videos_add gw with
                          | inl _ => (AiFailed, s3, ss1)
                          | inr docId =>
                              let s4 := snd (updateUsage_video w s3) in
                              let ss2 := mkScriptSt (groq_prompts ss1) (scripts ss1)
                                           (S (script_updates ss1)) in
                              (AiStarted docId videoId script, s4, ss2)
                          end
                      | (_, s3) => (AiFailed, s3, ss1)
                      end
                  end
              end
          end
      end
  end.

(** [req.file] as stored by multer. *)
Record UploadedFile := mkUploadedFile {
  f_path : string;
  f_originalname : string;
  f_size : Z;
  f_mimetype : string
}.

(** One document of the [assets] collection. *)
Record AssetRecord := mkAssetRecord {
  as_userId : string;
  as_userEmail : string;
  as_originalName : string;
  as_size : Z;
  as_type : string;
  as_mimeType : string;
  as_heygenAssetId : option string;
  as_status : string
}.

(** The HeyGen upload ([asset_id] and [data.asset_id]) and the Firestore
    [add]. *)
Record UploadWorld := mkUploadWorld {
  uw_upload : js_error + (string * option string);
  uw_store : js_error + string
}.

(** The key counters, the files in [uploadDir], the stored assets. *)
Record UploadSt := mkUploadSt {
  up_keyUsageCount : usage_map;
  uploadDir_files : gset string;
  assets : list AssetRecord
}.

(** Answers of [/api/upload-asset]. *)
Inductive upload_answer :=
| UpNoFile
| UpNoApiKeys
| UpHeyGenError (status : Z)
| UpFailed
| UpOk (assetId : string) (heygenAssetId : option string) (originalName : string)
    (size : Z) (type : string).

(** The [catch] of the upload route: remove the file, then 4xx/5xx. *)
Definition upload_catch (file : UploadedFile) (e : js_error) (st : UploadSt)
  : upload_answer * UploadSt :=
  let st' := mkUploadSt (up_keyUsageCount st) (uploadDir_files st ∖ {[ f_path file ]}) (assets st) in
  match e with
  | HttpError status => (UpHeyGenError status, st')
  | PlainError _ => (UpFailed, st')
  end.

(** The handler of [app.post('/api/upload-asset', verifyToken,
    upload.single('file'), ..)]. *)
Definition upload_asset (w : World) (uw : UploadWorld) (u : User)
    (file : option UploadedFile) (body_type : option string) (st : UploadSt)
  : upload_answer * UploadSt :=
  match file with
  | None => (UpNoFile, st)
  | Some f =>
      let type := default "image" body_type in
      let filePath := f_path f in
      let '(apiKey, m) := getNextHeyGenKey (HEYGEN_KEYS w) (up_keyUsageCount st) in
      let st1 := mkUploadSt m (uploadDir_files st) (assets st) in
      match apiKey with
      | None | Some "" => (UpNoApiKeys, st1)
      | Some _ =>
          match uw_upload uw with
          | inl e => upload_catch f e st1
          | inr (asset_id, data_asset_id) =>
              let st2 := mkUploadSt (up_keyUsageCount st1) (uploadDir_files st1 ∖ {[ filePath ]})
                           (assets st1) in
              let heygenAssetId :=
                if decide (asset_id = "") then data_asset_id else Some asset_id in
              let assetData := mkAssetRecord (uid u) (email u) (f_originalname f) (f_size f)
                                 type (f_mimetype f) heygenAssetId "uploaded" in
              match uw_store uw with
              | inl e => upload_catch f e st2
              | inr assetDocId =>
                  (UpOk assetDocId heygenAssetId (f_originalname f) (f_size f) type,
                   mkUploadSt (up_keyUsageCount st2) (uploadDir_files st2) (assets st2 ++ [assetData]))
              end
          end
      end
  end.

(** The route: multer first writes the file into [uploadDir]. *)
Definition upload_route (w : World) (uw : UploadWorld) (u : User)
    (file : option UploadedFile) (body_type : option string) (st : UploadSt)
  : upload_answer * UploadSt :=
  let st0 := match file with
             | Some f => mkUploadSt (up_keyUsageCount st) ({[ f_path f ]} ∪ uploadDir_files st) (assets st)
             | None => st
             end in
  upload_asset w uw u file body_type st0.

(* ================================================================= *)
(** ** More sample inputs *)

(** HeyGen rejects the generate call with HTTP 401. *)
Definition generate_rejecting_world : World :=
  mkWorld (Some (mkUser "u1" "u1@example.com")) true ["k1"; "k2"]
    (inl (HttpError 401)) completed_on_third DownloadOk FfmpegOk
    (inr "https://files.catbox.moe/abc.mp4") (inr "doc1") true
    "outputs/temp-1.mp4" "outputs/clean-1.mp4".

(** The Catbox upload fails. *)
Definition catbox_failing_world : World :=
  mkWorld (Some (mkUser "u1" "u1@example.com")) true ["k1"; "k2"]
    (inr "vid1") completed_on_third DownloadOk FfmpegOk
    (inl (PlainError "socket hang up")) (inr "doc1") true
    "outputs/temp-1.mp4" "outputs/clean-1.mp4".

(** The usage update of the user document fails. *)
Definition update_failing_world : World :=
  mkWorld (Some (mkUser "u1" "u1@example.com")) true ["k1"; "k2"]
    (inr "vid1") completed_on_third DownloadOk FfmpegOk
    (inr "https://files.catbox.moe/abc.mp4") (inr "doc1") false
    "outputs/temp-1.mp4" "outputs/clean-1.mp4".

(** [admin.auth().verifyIdToken] accepting the single token ["tok"]. *)
Definition sample_verifyIdToken (t : string) : option User :=
  if String.eqb t "tok" then Some (mkUser "u1" "u1@example.com") else None.

(** Groq answers every prompt with a script; the Firestore writes succeed. *)
Definition echo_groq : GroqWorld :=
  mkGroqWorld (fun _ => inr "Hello there") (inr "s1") (inr "ai1").

(** Groq answers every prompt with HTTP 429. *)
Definition throttled_groq : GroqWorld :=
  mkGroqWorld (fun _ => inl (HttpError 429)) (inr "s1") (inr "ai1").

Definition sample_ai_body : AiBody :=
  mkAiBody "AI tools" None "Abigail_expressive_2024112501" "a04d81d19afd436db611060682276331"
    (Some "portrait") None None None.

Definition sample_upload_world : UploadWorld :=
  mkUploadWorld (inr ("asset1", None)) (inr "assetdoc1").

Definition sample_upload : UploadedFile :=
  mkUploadedFile "uploads/1-a.png" "a.png" 10 "image/png".

(* ================================================================= *)
(** * Proofs *)

(** ** Credential pool *)

Section KeyPool.
Local Open Scope nat_scope.

Ltac nat_min_lia :=
  unfold KEY_QUOTA, id in *;
  repeat match goal with
  | |- context [Nat.min ?a ?b] =>
      destruct (Nat.min_spec a b) as [[? ->]|[? ->]]
  | H : context [Nat.min ?a ?b] |- _ =>
      destruct (Nat.min_spec a b) as [[? Hm]|[? Hm]]; rewrite Hm in H; clear Hm
  end; lia.

Lemma first_below_quota_at (keys : list string) (m : usage_map) j kj :
  keys !! j = Some kj -> usage_of m kj < KEY_QUOTA ->
  (forall i ki, i < j -> keys !! i = Some ki -> KEY_QUOTA <= usage_of m ki) ->
  first_below_quota keys m = Some kj.
Proof.
  revert j. induction keys as [|k ks IH]; intros j Hj Hlt Hbefore; [done|].
  destruct j as [|j]; simpl in *.
  - injection Hj as ->. by rewrite decide_True.
  - pose proof (Hbefore 0 k ltac:(lia) eq_refl).
    rewrite decide_False by lia.
    apply (IH j); [done|done|].
    intros i ki Hi Hki. apply (Hbefore (S i)); [lia|done].
Qed.

Lemma first_below_quota_app (pre post : list string) key (m : usage_map) :
  Forall (fun k => KEY_QUOTA <= usage_of m k) pre ->
  usage_of m key < KEY_QUOTA ->
  first_below_quota (pre ++ key :: post) m = Some key.
Proof.
  induction 1 as [|k pre Hk Hpre IH]; intros Hkey; simpl.
  - by rewrite decide_True.
  - rewrite decide_False by lia. by apply IH.
Qed.

Lemma first_below_quota_none (keys : list string) (m : usage_map) :
  (forall key, key ∈ keys -> KEY_QUOTA <= usage_of m key) ->
  first_below_quota keys m = None.
Proof.
  induction keys as [|k ks IH]; intros Hall; simpl; [done|].
  rewrite decide_False.
  - apply IH. intros key Hin. apply Hall. apply elem_of_cons. by right.
  - pose proof (Hall k ltac:(apply elem_of_cons; by left)). lia.
Qed.

(** After [k <= 10 * N] calls from the empty map, the key at position [i]
    has been used [min 10 (k - 10 i)] times. *)
Lemma acquire_n_usage (keys : list string) k :
  NoDup keys -> k <= KEY_QUOTA * length keys ->
  forall i key, keys !! i = Some key ->
  usage_of (acquire_n keys k ∅) key = Nat.min KEY_QUOTA (k - KEY_QUOTA * i).
Proof.
  intros Hnd. induction k as [|k IH]; intros Hk i key Hi.
  - simpl. unfold usage_of. rewrite lookup_empty. simpl. nat_min_lia.
  - cbn [acquire_n].
    pose proof (Nat.div_mod k 10 ltac:(lia)) as Hdm.
    pose proof (Nat.mod_upper_bound k 10 ltac:(lia)) as Hmod.
    set (j := k / 10) in *.
    assert (Hj : j < length keys) by (unfold KEY_QUOTA in *; lia).
    destruct (lookup_lt_is_Some_2 keys j Hj) as [kj Hkj].
    assert (Hfirst : first_below_quota keys (acquire_n keys k ∅) = Some kj).
    { apply (first_below_quota_at _ _ j); [done| |].
      - rewrite (IH ltac:(lia) j kj Hkj). nat_min_lia.
      - intros i' ki Hi' Hki. rewrite (IH ltac:(lia) i' ki Hki). nat_min_lia. }
    unfold getNextHeyGenKey. rewrite Hfirst. cbn [snd].
    unfold usage_of at 1.
    destruct (decide (key = kj)) as [->|Hne].
    + rewrite lookup_insert_eq. cbn [default].
      assert (i = j) as -> by (eapply NoDup_lookup; eauto).
      rewrite (IH ltac:(lia) j kj Hkj). nat_min_lia.
    + rewrite lookup_insert_ne; [|done].
      fold (usage_of (acquire_n keys k ∅) key).
      rewrite (IH ltac:(lia) i key Hi).
      assert (i <> j) by (intros ->; congruence).
      nat_min_lia.
Qed.

(** C4: from all counters at zero, [N * 10] calls leave every key of the
    pool at its quota, and call [N * 10 + 1] resets the counters and
    returns the first key with usage 1; any call that finds a key below
    the quota returns the first such key, incremented. *)
Theorem getNextHeyGenKey_rotation (keys : list string) :
  NoDup keys ->
  (forall key, key ∈ keys ->
     usage_of (acquire_n keys (length keys * KEY_QUOTA) ∅) key = KEY_QUOTA) /\
  (forall key0, head keys = Some key0 ->
     getNextHeyGenKey keys (acquire_n keys (length keys * KEY_QUOTA) ∅)
     = (Some key0, {[ key0 := 1 ]})) /\
  (forall (m : usage_map) pre key post, keys = pre ++ key :: post ->
     Forall (fun k => KEY_QUOTA <= usage_of m k) pre ->
     usage_of m key < KEY_QUOTA ->
     getNextHeyGenKey keys m = (Some key, <[key := usage_of m key + 1]> m)).
Proof.
  intros Hnd.
  assert (Hfull : forall key, key ∈ keys ->
     usage_of (acquire_n keys (length keys * KEY_QUOTA) ∅) key = KEY_QUOTA).
  { intros key Hin. apply list_elem_of_lookup in Hin as [i Hi].
    pose proof (lookup_lt_Some _ _ _ Hi).
    rewrite (acquire_n_usage keys (length keys * KEY_QUOTA) Hnd ltac:(nat_min_lia) i key Hi).
    nat_min_lia. }
  split; [exact Hfull|split].
  - intros key0 Hhead. unfold getNextHeyGenKey.
    rewrite first_below_quota_none; [|intros key Hin; rewrite Hfull; [lia|done]].
    rewrite Hhead. reflexivity.
  - intros m pre key post -> Hpre Hkey. unfold getNextHeyGenKey.
    by rewrite first_below_quota_app.
Qed.

End KeyPool.

(** ** The poll loop *)

Ltac unfold_monad :=
  unfold mbind, M_bind, mret, M_ret, get, modify, finish, throw, try_catch in *.

(** [poll_loop] always leaves the loop normally and only changes the
    clock and the number of status queries. *)
Lemma poll_loop_inv (w : World) fuel attempts (s : St) o s' :
  poll_loop w fuel attempts s = (o, s') ->
  exists u n t, o = Cont u /\
    s' = mkSt (keyUsageCount s) (account s) (videos s) (scratch s) (submitted s)
           n t (usage_updates s).
Proof.
  revert attempts s. induction fuel as [|fuel IH]; intros attempts s Hrun; simpl in Hrun.
  - injection Hrun as <- <-. destruct s. by do 3 eexists.
  - destruct (decide (attempts < maxAttempts)%nat).
    + unfold wait_5s, poll_once, video_status_get in Hrun. unfold_monad. simpl in Hrun.
      destruct (w_poll w attempts) as [status video_url|e].
      * repeat case_decide; simplify_eq/=; try by do 3 eexists.
        all: apply IH in Hrun as (u & n & t & -> & ->); by do 3 eexists.
      * apply IH in Hrun as (u & n & t & -> & ->). by do 3 eexists.
    + injection Hrun as <- <-. destruct s. by do 3 eexists.
Qed.

Lemma poll_loop_no_terminal (w : World) fuel attempts (s : St) :
  (forall n, non_terminal (w_poll w n)) ->
  (attempts <= maxAttempts)%nat -> (maxAttempts <= attempts + fuel)%nat ->
  poll_loop w fuel attempts s =
    (Cont "", mkSt (keyUsageCount s) (account s) (videos s) (scratch s) (submitted s)
       (status_queries s + (maxAttempts - attempts))%nat
       (clock s + 5000 * Z.of_nat (maxAttempts - attempts)) (usage_updates s)).
Proof.
  intros Hnt. revert attempts s.
  induction fuel as [|fuel IH]; intros attempts s Hle Hfuel; simpl.
  - assert (attempts = maxAttempts) as -> by lia.
    destruct s; simpl. f_equal. f_equal; unfold maxAttempts in *; lia.
  - destruct (decide (attempts < maxAttempts)%nat) as [Hlt|Hge].
    + unfold wait_5s, poll_once, video_status_get. unfold_monad. simpl.
      pose proof (Hnt attempts) as Hna.
      destruct (w_poll w attempts) as [status video_url|e]; simpl in Hna.
      * destruct Hna as [Hc Hf].
        rewrite decide_False by done. rewrite decide_False by done.
        rewrite IH by lia. simpl. f_equal. f_equal; unfold maxAttempts in *; lia.
      * rewrite IH by lia. simpl. f_equal. f_equal; unfold maxAttempts in *; lia.
    + assert (attempts = maxAttempts) as -> by lia.
      destruct s; simpl. f_equal. f_equal; unfold maxAttempts in *; lia.
Qed.

(** One loop iteration whose answer is not [completed] ([failed], any
    other status, or a raising query) waits once, queries once, and moves
    on to the next attempt. *)
Lemma poll_loop_step_continue (w : World) fuel attempts (s : St) :
  (attempts < maxAttempts)%nat ->
  match w_poll w attempts with
  | PollStatus status _ => status <> "completed"
  | PollRaises _ => True
  end ->
  poll_loop w (S fuel) attempts s =
  poll_loop w fuel (S attempts)
    (set_status_queries (S (status_queries s)) (set_clock (clock s + 5000) s)).
Proof.
  intros Hlt Hans. simpl. rewrite decide_True by done.
  unfold wait_5s, poll_once, video_status_get. unfold_monad. simpl.
  destruct (w_poll w attempts) as [status video_url|e]; [|reflexivity].
  rewrite decide_False by done.
  destruct (decide (status = "failed")); reflexivity.
Qed.

(** The provider answers [completed] at attempt [k] after non-terminal
    answers: the loop leaves with that URL after [k + 1] queries. *)
Lemma poll_loop_completes (w : World) k url :
  (k < maxAttempts)%nat ->
  (forall n, (n < k)%nat -> non_terminal (w_poll w n)) ->
  w_poll w k = PollStatus "completed" url ->
  forall fuel attempts (s : St),
  (attempts <= k)%nat -> (maxAttempts <= attempts + fuel)%nat ->
  poll_loop w fuel attempts s =
    (Cont url, mkSt (keyUsageCount s) (account s) (videos s) (scratch s) (submitted s)
       (status_queries s + (S k - attempts))%nat
       (clock s + 5000 * Z.of_nat (S k - attempts)) (usage_updates s)).
Proof.
  intros Hk Hbefore Hcomp fuel.
  induction fuel as [|fuel IH]; intros attempts s Ha Hfuel; [lia|].
  destruct (decide (attempts = k)) as [->|Hne].
  - simpl. case_decide; [|lia].
    unfold wait_5s, poll_once, video_status_get. unfold_monad. simpl.
    rewrite Hcomp. simpl.
    destruct s; unfold set_status_queries, set_clock; simpl.
    f_equal. f_equal; lia.
  - pose proof (Hbefore attempts ltac:(lia)) as Hna.
    rewrite poll_loop_step_continue; [|lia|].
    + rewrite IH by lia. simpl. f_equal. f_equal; unfold maxAttempts in *; lia.
    + destruct (w_poll w attempts); [apply Hna|done].
Qed.

(** ** The route *)

Section Route.

Local Opaque poll_loop.

Ltac poll_inv :=
  match goal with
  | E : poll_loop _ _ _ _ = (_, _) |- _ =>
      apply poll_loop_inv in E as (? & ? & ? & ? & ->); simplify_eq
  end.

Ltac route_unfold :=
  unfold run_generate, generate_video, checkVideoLimits, generate_body,
    acquire_key, heygen_generate, download_video, removeWatermark,
    uploadToCatbox, storeVideoUrl, updateUsage_video, removeSync,
    generate_catch in *;
  unfold_monad.

Ltac route_cases :=
  route_unfold;
  repeat (case_match; simplify_eq/=; try poll_inv).

(** C3: [updateUsage(uid, 'video')] runs exactly once on a run that answers
    with success, and on every other answer neither runs nor changes the
    account document. *)
Theorem updateUsage_exactly_once_on_success (w : World) (req : Request) (s : St) :
  forall r s', run_generate w req s = (r, s') ->
  (forall id url, r = Some (Success id url) -> usage_updates s' = S (usage_updates s)) /\
  (forall rsp, r = Some rsp -> (forall id url, rsp <> Success id url) ->
     usage_updates s' = usage_updates s /\ account s' = account s).
Proof.
  intros r s' Hrun. split.
  - intros id url ->. route_cases; done.
  - intros rsp -> Hns. route_cases; try done.
    all: try (exfalso; by eapply Hns).
Qed.

(** C7: with the balance read, the route answers [InsufficientCredits]
    exactly when the balance is below 20, with the balance, the 20 credits
    needed and the upgrade options, and the state is then untouched. *)
Theorem insufficient_credits_iff (w : World) (req : Request) (s : St) (u : User) :
  w_user w = Some u -> w_read_ok w = true ->
  (balance s < CREDITS_PER_VIDEO ->
     run_generate w req s =
       (Some (InsufficientCredits (balance s) CREDITS_PER_VIDEO upgradeOptions), s)) /\
  (forall cur need opts s',
     run_generate w req s = (Some (InsufficientCredits cur need opts), s') ->
     balance s < CREDITS_PER_VIDEO).
Proof.
  intros Hu Hread. unfold balance. split.
  - intros Hlt. unfold run_generate, generate_video, checkVideoLimits.
    rewrite Hu, Hread. unfold_monad. simpl.
    rewrite decide_True by done. reflexivity.
  - intros cur need opts s' Hrun. route_cases; done.
Qed.

(** C5: the dimension table, custom dimensions taken verbatim, and the
    generate call receives the dimensions it selects. *)
Theorem dimensions_table (w : World) (req : Request) (s : St) :
  select_dimensions None "landscape" = mkDims 1280 720 /\
  select_dimensions None "portrait" = mkDims 720 1280 /\
  select_dimensions None "square" = mkDims 1080 1080 /\
  (forall d orientation, select_dimensions (Some d) orientation = d) /\
  (submitted (snd (run_generate w req s)) = submitted s \/
   submitted (snd (run_generate w req s)) =
     submitted s ++ [select_dimensions (req_customDimensions req)
                       (default "landscape" (req_orientation req))]).
Proof.
  split; [reflexivity|]. split; [reflexivity|]. split; [reflexivity|].
  split; [done|].
  destruct (run_generate w req s) as [r s'] eqn:Hrun. simpl.
  route_cases; auto.
Qed.

(** C10: without custom dimensions, an orientation other than [portrait]
    and [square] (omitted, ['custom'], anything) selects 1280x720; past the
    credit check the only [400] answer is for a missing script or avatar,
    and a generate call, if made, receives 1280x720. *)
Theorem orientation_falls_back_to_landscape (w : World) (req : Request) (s : St) (u : User) :
  w_user w = Some u -> w_read_ok w = true -> CREDITS_PER_VIDEO <= balance s ->
  req_customDimensions req = None ->
  default "landscape" (req_orientation req) <> "portrait" ->
  default "landscape" (req_orientation req) <> "square" ->
  select_dimensions None (default "landscape" (req_orientation req)) = mkDims 1280 720 /\
  (fst (run_generate w req s) = Some BadRequest <->
     req_script req = "" \/ req_avatar req = "") /\
  (submitted (snd (run_generate w req s)) = submitted s \/
   submitted (snd (run_generate w req s)) = submitted s ++ [mkDims 1280 720]).
Proof.
  intros Hu Hread Hbal Hcd Hp Hsq.
  assert (Hdim : select_dimensions None (default "landscape" (req_orientation req))
                 = mkDims 1280 720).
  { unfold select_dimensions. by rewrite !decide_False. }
  split; [exact Hdim|].
  destruct (run_generate w req s) as [r s'] eqn:Hrun. simpl.
  unfold balance in Hbal.
  split; [split|].
  - intros ->. route_cases; try done; unfold CREDITS_PER_VIDEO in *; lia.
  - intros Hmiss. route_cases; try done; try tauto; unfold CREDITS_PER_VIDEO in *; lia.
  - clear Hdim. route_cases; auto.
    all: right; unfold select_dimensions; rewrite Hcd; by rewrite !decide_False.
Qed.

Ltac key_rewrite :=
  match goal with
  | E : getNextHeyGenKey _ _ = _, H : context [getNextHeyGenKey _ _] |- _ =>
      rewrite E in H; simpl in H; simplify_eq
  end.

(** C6: once the job is submitted, a provider that never answers
    [completed] or [failed] (raising queries included) gets exactly 60
    status queries, each after a 5 s wait, and the route answers 408; a
    raising query is one attempt of the same budget. *)
Theorem poll_timeout_after_max_attempts (w : World) (req : Request) (s : St)
    (u : User) (key videoId : string) :
  w_user w = Some u -> w_read_ok w = true -> CREDITS_PER_VIDEO <= balance s ->
  req_script req <> "" -> req_avatar req <> "" ->
  fst (getNextHeyGenKey (HEYGEN_KEYS w) (keyUsageCount s)) = Some key -> key <> "" ->
  w_generate w = inr videoId ->
  (forall n, non_terminal (w_poll w n)) ->
  fst (run_generate w req s) = Some GenerationTimeout /\
  status_queries (snd (run_generate w req s)) = (status_queries s + maxAttempts)%nat /\
  clock (snd (run_generate w req s)) = clock s + 5000 * Z.of_nat maxAttempts /\
  (forall fuel attempts (s0 : St) e,
     (attempts < maxAttempts)%nat -> w_poll w attempts = PollRaises e ->
     poll_loop w (S fuel) attempts s0 =
     poll_loop w fuel (S attempts)
       (set_status_queries (S (status_queries s0)) (set_clock (clock s0 + 5000) s0))).
Proof.
  intros Hu Hread Hbal Hscript Havatar Hkey Hkey' Hgen Hnt.
  split; [|split; [|split]].
  4: { intros fuel attempts s0 e Hlt He. apply poll_loop_step_continue; [done|].
       by rewrite He. }
  all: destruct (run_generate w req s) as [r s'] eqn:Hrun; simpl.
  all: unfold balance in Hbal; route_unfold.
  all: repeat (case_match; simplify_eq/=; try key_rewrite;
         try match goal with
         | E : poll_loop _ _ _ _ = _ |- _ =>
             rewrite poll_loop_no_terminal in E by (done || lia); simplify_eq
         end).
  all: try first [ done | exfalso; unfold CREDITS_PER_VIDEO in *; lia ].
  all: match goal with o : _ \/ _ |- _ => destruct o; contradiction end.
Qed.

(** C8 (as the code does it): on a run whose every step succeeds
    ([completed] at attempt [k] after non-terminal answers), the route
    answers with the Catbox URL, writes one video record, calls
    [updateUsage] once, and the account loses 20 credits, gains 20
    [creditsUsed] and one [videosGenerated], and gets [lastVideoGenerated]
    set to the server time. *)
Theorem success_run_commit (w : World) (req : Request) (s : St) (u : User)
    (a : Account) (key videoId : string) (k : nat) (url catboxUrl docId : string) :
  w_user w = Some u -> w_read_ok w = true ->
  account s = Some a -> CREDITS_PER_VIDEO <= credits a ->
  req_script req <> "" -> req_avatar req <> "" ->
  fst (getNextHeyGenKey (HEYGEN_KEYS w) (keyUsageCount s)) = Some key -> key <> "" ->
  w_generate w = inr videoId ->
  (k < maxAttempts)%nat -> (forall n, (n < k)%nat -> non_terminal (w_poll w n)) ->
  w_poll w k = PollStatus "completed" url -> url <> "" ->
  w_download w = DownloadOk -> w_ffmpeg w = FfmpegOk ->
  w_catbox w = inr catboxUrl -> w_store w = inr docId -> w_update_ok w = true ->
  fst (run_generate w req s) = Some (Success docId catboxUrl) /\
  account (snd (run_generate w req s)) =
    Some (mkAccount (credits a - 20) (creditsUsed a + 20) (videosGenerated a + 1)
            (Some (clock (snd (run_generate w req s))))) /\
  length (videos (snd (run_generate w req s))) = S (length (videos s)) /\
  usage_updates (snd (run_generate w req s)) = S (usage_updates s).
Proof.
  intros Hu Hread Hacc Hbal Hscript Havatar Hkey Hkey' Hgen Hk Hbefore Hcomp Hurl
    Hdl Hff Hcat Hstore Hupd.
  destruct (run_generate w req s) as [r s'] eqn:Hrun; simpl.
  route_unfold.
  repeat (case_match; simplify_eq/=; try key_rewrite;
    try match goal with
    | E : poll_loop _ _ _ _ = _ |- _ =>
        rewrite (poll_loop_completes w k url Hk Hbefore Hcomp) in E by lia;
        simplify_eq
    end).
  all: try (exfalso; congruence).
  all: try (exfalso; unfold CREDITS_PER_VIDEO in *; lia).
  all: try (match goal with o : _ \/ _ |- _ => destruct o; contradiction end).
  rewrite length_app. simpl. split; [done|]. split; [|split; [lia|done]].
  unfold video_usage_increment, CREDITS_PER_VIDEO. done.
Qed.

End Route.

(** ** Concrete runs *)

(** C1: a [failed] answer does not end the run. The [throw] in the poll
    body is caught by the loop's own [catch (pollError)]: with [failed] on
    every poll the run makes all 60 queries and answers 408; with [failed]
    then [completed] it succeeds and debits the account. *)
Theorem failed_status_keeps_polling :
  fst (run_generate (sample_world (always_status "failed")) sample_request
         (sample_state 25)) = Some GenerationTimeout /\
  status_queries (snd (run_generate (sample_world (always_status "failed"))
         sample_request (sample_state 25))) = 60%nat /\
  fst (run_generate (sample_world failed_then_completed) sample_request
         (sample_state 25)) = Some (Success "doc1" "https://files.catbox.moe/abc.mp4") /\
  account (snd (run_generate (sample_world failed_then_completed) sample_request
         (sample_state 25))) = Some (mkAccount 5 20 1 (Some 10000)).
Proof. vm_compute. repeat split. Qed.

(** C2 (code bug): when ffmpeg fails, the route answers 500 and the raw
    download is still in the scratch directory: the handler's [catch]
    deletes no scratch file. *)
Lemma raw_file_left_on_crop_failure :
  fst (run_generate ffmpeg_failing_world sample_request (sample_state 25))
    = Some (InternalError "ffmpeg exited with code 1") /\
  w_tempVideoPath ffmpeg_failing_world
    ∈ scratch (snd (run_generate ffmpeg_failing_world sample_request (sample_state 25))).
Proof.
  split; [vm_compute; reflexivity|].
  apply (bool_decide_unpack _). vm_compute. exact I.
Qed.

(** C8 fails as stated: besides the three counters, [updateUsage] also
    writes [lastVideoGenerated]. *)
Lemma commit_also_writes_lastVideoGenerated :
  account (snd (run_generate (sample_world completed_on_third) sample_request
                  (sample_state 25)))
  <> Some (mkAccount 5 20 1 None).
Proof. vm_compute. congruence. Qed.

(** C9 fails as stated: a frame at most 150 pixels wide has no
    [w - 150]-wide crop; ffmpeg rejects the filter. *)
Lemma crop_rejects_narrow_frame :
  ~ exists f', removeWatermark_frame (mkFrame 100 720 (fun _ _ => 0)) = Some f' /\
               fw f' = 100 - 150 /\ fh f' = 720 - 80.
Proof. intros (f' & Hf & _). vm_compute in Hf. discriminate. Qed.

(** C9 (as the code does it): on a frame wider than 150 and taller than
    80 pixels the crop keeps the top-left [(w - 150) x (h - 80)] pixels
    unchanged; on a smaller frame it fails. *)
Theorem watermark_crop_fixed (f : Frame) :
  removeWatermark_frame f =
    if decide (150 < fw f /\ 80 < fh f) then
      Some (mkFrame (fw f - 150) (fh f - 80) (fun i j => pixel f i j))
    else None.
Proof.
  destruct f as [w h px]. unfold removeWatermark_frame, ffmpeg_crop, watermark_crop.
  simpl. repeat case_decide; try reflexivity; exfalso; lia.
Qed.

(** ** Instances of the theorems at sample inputs *)

Lemma getNextHeyGenKey_rotation_witness :
  NoDup ["k1"; "k2"] /\
  getNextHeyGenKey ["k1"; "k2"] (acquire_n ["k1"; "k2"] (length ["k1"; "k2"] * KEY_QUOTA) ∅)
    = (Some "k1", {[ "k1" := 1%nat ]}).
Proof.
  assert (Hnd : NoDup ["k1"; "k2"]) by (apply (bool_decide_unpack _); vm_compute; exact I).
  split; [exact Hnd|].
  exact (proj1 (proj2 (getNextHeyGenKey_rotation ["k1"; "k2"] Hnd)) "k1" eq_refl).
Defined.

Lemma updateUsage_exactly_once_on_success_witness :
  usage_updates (snd (run_generate (sample_world completed_on_third) sample_request
                        (sample_state 25))) = 1%nat.
Proof.
  apply (proj1 (updateUsage_exactly_once_on_success (sample_world completed_on_third)
    sample_request (sample_state 25) _ _ (surjective_pairing _))
    "doc1" "https://files.catbox.moe/abc.mp4").
  vm_compute. reflexivity.
Defined.

Lemma insufficient_credits_iff_witness :
  run_generate (sample_world completed_on_third) sample_request (sample_state 10)
  = (Some (InsufficientCredits 10 CREDITS_PER_VIDEO upgradeOptions), sample_state 10).
Proof.
  apply (proj1 (insufficient_credits_iff (sample_world completed_on_third) sample_request
    (sample_state 10) (mkUser "u1" "u1@example.com") eq_refl eq_refl)).
  vm_compute. reflexivity.
Defined.

Lemma poll_timeout_after_max_attempts_witness :
  fst (run_generate (sample_world (always_status "processing")) sample_request
         (sample_state 25)) = Some GenerationTimeout.
Proof.
  apply (proj1 (poll_timeout_after_max_attempts (sample_world (always_status "processing"))
    sample_request (sample_state 25) (mkUser "u1" "u1@example.com") "k1" "vid1"
    eq_refl eq_refl ltac:(vm_compute; discriminate) ltac:(discriminate)
    ltac:(discriminate) eq_refl ltac:(discriminate) eq_refl
    ltac:(intros n; split; discriminate))).
Defined.

Lemma success_run_commit_witness :
  fst (run_generate (sample_world completed_on_third) sample_request (sample_state 25))
  = Some (Success "doc1" "https://files.catbox.moe/abc.mp4").
Proof.
  apply (proj1 (success_run_commit (sample_world completed_on_third) sample_request
    (sample_state 25) (mkUser "u1" "u1@example.com") (mkAccount 25 0 0 None)
    "k1" "vid1" 2 "https://heygen.example/v.mp4" "https://files.catbox.moe/abc.mp4" "doc1"
    eq_refl eq_refl eq_refl ltac:(vm_compute; discriminate)
    ltac:(discriminate) ltac:(discriminate) eq_refl ltac:(discriminate) eq_refl
    ltac:(vm_compute; lia)
    ltac:(intros n Hn; simpl; unfold completed_on_third;
          case_decide; [lia | split; discriminate])
    eq_refl ltac:(discriminate) eq_refl eq_refl eq_refl eq_refl eq_refl)).
Defined.

Lemma orientation_falls_back_to_landscape_witness :
  select_dimensions None (default "landscape" (req_orientation custom_orientation_request))
  = mkDims 1280 720.
Proof.
  apply (proj1 (orientation_falls_back_to_landscape (sample_world completed_on_third)
    custom_orientation_request (sample_state 25) (mkUser "u1" "u1@example.com")
    eq_refl eq_refl ltac:(vm_compute; discriminate) eq_refl
    ltac:(discriminate) ltac:(discriminate))).
Defined.

(** ** The key pool: more properties *)
Section KeyPoolMore.
Local Open Scope nat_scope.

Lemma first_below_quota_spec (keys : list string) (m : usage_map) key :
  first_below_quota keys m = Some key -> key ∈ keys /\ usage_of m key < KEY_QUOTA.
Proof.
  induction keys as [|k ks IH]; simpl; [done|].
  case_decide.
  - intros [= <-]. split; [apply elem_of_cons; by left|done].
  - intros Hf. destruct (IH Hf). split; [apply elem_of_cons; by right|done].
Qed.

(** X1: if every counter of the pool is at most 10, it still is after a call of
    [getNextHeyGenKey]; and on a non-empty pool the call returns a key of the
    pool whose counter is then at least 1. *)
Theorem getNextHeyGenKey_within_quota (keys : list string) (m : usage_map) :
  map_Forall (fun _ v => v <= KEY_QUOTA) m ->
  map_Forall (fun _ v => v <= KEY_QUOTA) (snd (getNextHeyGenKey keys m)) /\
  (keys <> [] ->
   exists key, fst (getNextHeyGenKey keys m) = Some key /\ key ∈ keys /\
     1 <= usage_of (snd (getNextHeyGenKey keys m)) key).
Proof.
  intros Hm. unfold getNextHeyGenKey.
  destruct (first_below_quota keys m) as [key|] eqn:Hf.
  - apply first_below_quota_spec in Hf as [Hin Hlt]. simpl. split.
    + apply map_Forall_insert_2; [lia|done].
    + intros _. exists key. split; [done|]. split; [done|].
      unfold usage_of at 1. rewrite lookup_insert_eq. simpl. lia.
  - destruct keys as [|k ks]; simpl.
    + split; [|done]. apply map_Forall_singleton. unfold KEY_QUOTA. lia.
    + split.
      * apply map_Forall_singleton. unfold KEY_QUOTA. lia.
      * intros _. exists k. split; [done|]. split; [apply elem_of_cons; by left|].
        unfold usage_of. rewrite lookup_singleton_eq. simpl. lia.
Qed.

End KeyPoolMore.

(** ** The generation route: error paths *)
Section RouteMore.

Local Opaque poll_loop.

Ltac run_unfold :=
  unfold run_generate, generate_video, checkVideoLimits, generate_body,
    acquire_key, heygen_generate, download_video, removeWatermark,
    uploadToCatbox, storeVideoUrl, updateUsage_video, removeSync,
    generate_catch in *;
  unfold mbind, M_bind, mret, M_ret, get, modify, finish, throw, try_catch in *.

Ltac poll_keeps :=
  match goal with
  | E : poll_loop _ _ _ _ = (_, _) |- _ =>
      apply poll_loop_inv in E as (? & ? & ? & ? & ->); simplify_eq
  end.

Ltac run_cases :=
  run_unfold;
  repeat (case_match; simplify_eq/=; try poll_keeps).

(** X2: a generation request changes the key counters exactly when it passes
    authentication, the credit check and the [script]/[avatar] check, and then
    by exactly one [getNextHeyGenKey] call. *)
Theorem key_counter_after_run (w : World) (req : Request) (s : St) :
  keyUsageCount (snd (run_generate w req s)) =
    if decide (w_user w <> None /\ w_read_ok w = true /\ CREDITS_PER_VIDEO <= balance s /\
               req_script req <> "" /\ req_avatar req <> "")
    then snd (getNextHeyGenKey (HEYGEN_KEYS w) (keyUsageCount s))
    else keyUsageCount s.
Proof.
  unfold balance.
  destruct (run_generate w req s) as [r s'] eqn:Hrun. simpl.
  case_decide as Hd.
  - destruct Hd as (Hu & Hread & Hbal & Hsc & Hav).
    run_cases.
    all: try match goal with E : getNextHeyGenKey _ _ = _ |- _ =>
           rewrite E; done end.
    all: try done.
    all: try (exfalso; unfold CREDITS_PER_VIDEO in *; lia).
    all: try (match goal with o : _ \/ _ |- _ => destruct o; contradiction end).
  - run_cases.
    all: try done.
    all: exfalso; apply Hd; repeat split; try congruence.
    all: try (unfold CREDITS_PER_VIDEO in *; lia).
    all: intros E; match goal with n : ~ (_ \/ _) |- _ => apply n; tauto end.
Qed.

Ltac key_subst :=
  match goal with
  | E : getNextHeyGenKey _ _ = _, H : context [getNextHeyGenKey _ _] |- _ =>
      rewrite E in H; simpl in H; simplify_eq
  end.

(** X3: with [HEYGEN_KEYS] empty, an otherwise valid request is answered 503
    and the only change is the counter map becoming [{ undefined: 1 }]. *)
Theorem empty_key_pool_answers_503 (w : World) (req : Request) (s : St) (u : User) :
  w_user w = Some u -> w_read_ok w = true -> CREDITS_PER_VIDEO <= balance s ->
  req_script req <> "" -> req_avatar req <> "" ->
  HEYGEN_KEYS w = [] ->
  run_generate w req s = (Some NoApiKeys, set_keyUsageCount {[ "undefined" := 1%nat ]} s).
Proof.
  intros Hu Hread Hbal Hsc Hav Hk. unfold balance in Hbal.
  run_unfold. rewrite Hu, Hread, Hk. simpl.
  destruct (account s) as [a|]; [|unfold CREDITS_PER_VIDEO in Hbal; lia].
  rewrite decide_False by lia. simpl.
  rewrite decide_False by tauto. reflexivity.
Qed.

(** X4: when the first key below quota is the empty string (for instance
    from [HEYGEN_KEYS=k1,,k2]), the request is answered 503 although the pool
    may hold usable keys after it; the empty key's counter is incremented. *)
Theorem empty_pool_entry_answers_503 (w : World) (req : Request) (s : St) (u : User) :
  w_user w = Some u -> w_read_ok w = true -> CREDITS_PER_VIDEO <= balance s ->
  req_script req <> "" -> req_avatar req <> "" ->
  first_below_quota (HEYGEN_KEYS w) (keyUsageCount s) = Some "" ->
  run_generate w req s =
    (Some NoApiKeys,
     set_keyUsageCount (<[ "" := (usage_of (keyUsageCount s) "" + 1)%nat ]> (keyUsageCount s)) s).
Proof.
  intros Hu Hread Hbal Hsc Hav Hf. unfold balance in Hbal.
  run_unfold. rewrite Hu, Hread. simpl.
  destruct (account s) as [a|]; [|unfold CREDITS_PER_VIDEO in Hbal; lia].
  rewrite decide_False by lia. simpl.
  rewrite decide_False by tauto.
  unfold getNextHeyGenKey. rewrite Hf. reflexivity.
Qed.

(** X5: when the HeyGen generate call fails, the answer is the error's HTTP
    status (or a 500 for an error without response); no status query is made,
    no credit is taken and no video is stored. *)
Theorem generate_call_error_answer (w : World) (req : Request) (s : St) (u : User)
    (key : string) (e : js_error) :
  w_user w = Some u -> w_read_ok w = true -> CREDITS_PER_VIDEO <= balance s ->
  req_script req <> "" -> req_avatar req <> "" ->
  fst (getNextHeyGenKey (HEYGEN_KEYS w) (keyUsageCount s)) = Some key -> key <> "" ->
  w_generate w = inl e ->
  fst (run_generate w req s) =
    Some (match e with
          | HttpError status => HeyGenApiError status
          | PlainError message => InternalError message
          end) /\
  status_queries (snd (run_generate w req s)) = status_queries s /\
  account (snd (run_generate w req s)) = account s /\
  videos (snd (run_generate w req s)) = videos s.
Proof.
  intros Hu Hread Hbal Hsc Hav Hkey Hkey' Hgen. unfold balance in Hbal.
  destruct (run_generate w req s) as [r s'] eqn:Hrun; simpl.
  run_unfold.
  repeat (case_match; simplify_eq/=; try key_subst).
  all: try (exfalso; congruence).
  all: try (exfalso; unfold CREDITS_PER_VIDEO in *; lia).
  all: try (match goal with o : _ \/ _ |- _ => destruct o; contradiction end).
  all: repeat split.
Qed.

Ltac poll_complete_rewrite k url Hk Hbefore Hcomp :=
  match goal with
  | E : poll_loop _ _ _ _ = _ |- _ =>
      rewrite (poll_loop_completes _ k url Hk Hbefore Hcomp) in E by lia;
      simplify_eq
  end.

(** X6: when the Catbox upload fails after a completed render, the answer is
    500 ["Failed to upload video to Catbox"], no credit is taken, no video is
    stored, and both scratch files are left behind. *)
Theorem catbox_failure_answer (w : World) (req : Request) (s : St) (u : User)
    (key videoId : string) (k : nat) (url : string) (e : js_error) :
  w_user w = Some u -> w_read_ok w = true -> CREDITS_PER_VIDEO <= balance s ->
  req_script req <> "" -> req_avatar req <> "" ->
  fst (getNextHeyGenKey (HEYGEN_KEYS w) (keyUsageCount s)) = Some key -> key <> "" ->
  w_generate w = inr videoId ->
  (k < maxAttempts)%nat -> (forall n, (n < k)%nat -> non_terminal (w_poll w n)) ->
  w_poll w k = PollStatus "completed" url -> url <> "" ->
  w_download w = DownloadOk -> w_ffmpeg w = FfmpegOk ->
  w_catbox w = inl e ->
  fst (run_generate w req s) = Some (InternalError "Failed to upload video to Catbox") /\
  account (snd (run_generate w req s)) = account s /\
  videos (snd (run_generate w req s)) = videos s /\
  w_tempVideoPath w ∈ scratch (snd (run_generate w req s)) /\
  w_cleanVideoPath w ∈ scratch (snd (run_generate w req s)).
Proof.
  intros Hu Hread Hbal Hscript Havatar Hkey Hkey' Hgen Hk Hbefore Hcomp Hurl
    Hdl Hff Hcat.
  unfold balance in Hbal.
  destruct (run_generate w req s) as [r s'] eqn:Hrun; simpl.
  run_unfold.
  repeat (case_match; simplify_eq/=; try key_subst;
    try poll_complete_rewrite k url Hk Hbefore Hcomp).
  all: try (exfalso; congruence).
  all: try (exfalso; unfold CREDITS_PER_VIDEO in *; lia).
  all: try (match goal with o : _ \/ _ |- _ => destruct o; contradiction end).
  repeat split; set_solver.
Qed.

(** X7: when the credit update fails after the video record is stored, the
    request still succeeds: one video record is added, one update is
    attempted, and the account is unchanged (the video is free). *)
Theorem usage_update_failure_still_succeeds (w : World) (req : Request) (s : St) (u : User)
    (key videoId : string) (k : nat) (url catboxUrl docId : string) :
  w_user w = Some u -> w_read_ok w = true -> CREDITS_PER_VIDEO <= balance s ->
  req_script req <> "" -> req_avatar req <> "" ->
  fst (getNextHeyGenKey (HEYGEN_KEYS w) (keyUsageCount s)) = Some key -> key <> "" ->
  w_generate w = inr videoId ->
  (k < maxAttempts)%nat -> (forall n, (n < k)%nat -> non_terminal (w_poll w n)) ->
  w_poll w k = PollStatus "completed" url -> url <> "" ->
  w_download w = DownloadOk -> w_ffmpeg w = FfmpegOk ->
  w_catbox w = inr catboxUrl -> w_store w = inr docId -> w_update_ok w = false ->
  fst (run_generate w req s) = Some (Success docId catboxUrl) /\
  account (snd (run_generate w req s)) = account s /\
  length (videos (snd (run_generate w req s))) = S (length (videos s)) /\
  usage_updates (snd (run_generate w req s)) = S (usage_updates s).
Proof.
  intros Hu Hread Hbal Hscript Havatar Hkey Hkey' Hgen Hk Hbefore Hcomp Hurl
    Hdl Hff Hcat Hstore Hupd.
  unfold balance in Hbal.
  destruct (run_generate w req s) as [r s'] eqn:Hrun; simpl.
  run_unfold.
  repeat (case_match; simplify_eq/=; try key_subst;
    try poll_complete_rewrite k url Hk Hbefore Hcomp).
  all: try (exfalso; congruence).
  all: try (exfalso; unfold CREDITS_PER_VIDEO in *; lia).
  all: try (match goal with o : _ \/ _ |- _ => destruct o; contradiction end).
  rewrite length_app. simpl. repeat split; lia.
Qed.

End RouteMore.

(** ** [deepSanitize] *)

Lemma key_char_cleanKey (key : string) :
  string_forall key_char (cleanKey key) = true.
Proof.
  induction key as [|c key IH]; simpl; [done|].
  destruct (key_char c) eqn:Hc; simpl; [rewrite Hc|]; done.
Qed.

Lemma assign_all (P : string * json -> Prop) (obj : list (string * json)) k v :
  list_all P obj -> P (k, v) -> list_all P (assign obj k v).
Proof.
  induction obj as [|[k' v'] obj IH]; simpl; intros Hall Hp; [done|].
  destruct Hall as [Hkv Hrest]. case_decide; simpl; auto.
Qed.

Lemma sanitize_items_keys_clean (f : json -> option json) (items ys : list json) :
  Forall (fun x => forall y, f x = Some y -> keys_clean y) items ->
  sanitize_items f items = Some ys -> list_all keys_clean ys.
Proof.
  intros Hall. revert ys.
  induction Hall as [|x items Hx Hitems IH]; intros ys Hs; simpl in Hs.
  - by simplify_eq.
  - destruct (f x) as [y|] eqn:Hy; [|done].
    destruct (sanitize_items f items) as [ys'|]; simplify_eq/=.
    split; [by apply Hx|by apply IH].
Qed.

Lemma sanitize_fields_keys_clean (f : json -> option json) (fields acc o : list (string * json)) :
  Forall (fun kv => forall y, f (snd kv) = Some y -> keys_clean y) fields ->
  list_all (fun '(k, v) =>
              string_forall key_char k = true /\ k <> "__proto__" /\ keys_clean v) acc ->
  sanitize_fields f acc fields = Some o ->
  list_all (fun '(k, v) =>
              string_forall key_char k = true /\ k <> "__proto__" /\ keys_clean v) o.
Proof.
  intros Hall. revert acc.
  induction Hall as [|[key v] fields Hkv Hfields IH]; intros acc Hacc Hs; simpl in Hs.
  - by simplify_eq.
  - destruct (f v) as [v'|] eqn:Hv; [|done].
    refine (IH _ _ Hs). unfold set_property. case_decide as Hp; [done|].
    apply assign_all; [done|].
    split; [apply key_char_cleanKey|]. split; [done|]. by apply (Hkv v').
Qed.

(** X9: every object key, at any depth, of a value [deepSanitize] returns is
    made of [a-zA-Z0-9_] only and is not [__proto__]. *)
Theorem deepSanitize_keys_clean (xss : string -> string) (obj out : json) :
  deepSanitize xss obj = Some out -> keys_clean out.
Proof.
  revert out. induction obj as [| | | |items IH|fields IH] using json_ind'; intros out Hs;
    simpl in Hs; simplify_eq/=; try done.
  - destruct (isMalicious (xss s)); simplify_eq/=. done.
  - destruct (sanitize_items (deepSanitize xss) items) as [ys|] eqn:Hys; simplify_eq/=.
    exact (sanitize_items_keys_clean _ _ _ IH Hys).
  - destruct (sanitize_fields (deepSanitize xss) [] fields) as [o|] eqn:Ho; simplify_eq/=.
    exact (sanitize_fields_keys_clean _ _ [] _ IH I Ho).
Qed.

Lemma sanitize_items_None (f : json -> option json) (items : list json) :
  list_any (fun x => f x = None) items -> sanitize_items f items = None.
Proof.
  induction items as [|x items IH]; simpl; [done|].
  intros [Hx|Hrest].
  - by rewrite Hx.
  - destruct (f x); [|done]. by rewrite IH.
Qed.

Lemma sanitize_fields_None (f : json -> option json) (fields acc : list (string * json)) :
  list_any (fun '(_, v) => f v = None) fields -> sanitize_fields f acc fields = None.
Proof.
  revert acc. induction fields as [|[key v] fields IH]; intros acc; simpl; [done|].
  intros [Hv|Hrest].
  - by rewrite Hv.
  - destruct (f v); [|done]. by apply IH.
Qed.

Lemma list_any_impl {A} (P Q : A -> Prop) (l : list A) :
  Forall (fun x => P x -> Q x) l -> list_any P l -> list_any Q l.
Proof.
  induction 1 as [|x l Hx Hl IH]; simpl; [done|]. intros [?|?]; auto.
Qed.

(** X10: a string left unchanged by [xss] that contains one of the SQL or
    NoSQL patterns (case-insensitively) makes [deepSanitize] throw, wherever
    it occurs in the value. *)
Theorem deepSanitize_rejects_anywhere (xss : string -> string) (obj : json) (s : string) :
  occurs_string s obj -> xss s = s ->
  (exists pat, pat ∈ sqlPatterns_chars ++ sqlPatterns_words ++ noSqlPatterns /\
               contains (lower pat) (lower s) = true) ->
  deepSanitize xss obj = None.
Proof.
  intros Hocc Hxss (pat & Hpat & Hc).
  assert (Hmal : isMalicious (xss s) = true).
  { rewrite Hxss. unfold isMalicious. apply existsb_exists. exists pat.
    split; [by apply list_elem_of_In|done]. }
  induction obj as [| | | |items IH|fields IH] using json_ind'; simpl in *; try done.
  - subst. by rewrite Hmal.
  - rewrite sanitize_items_None; [done|].
    eapply list_any_impl; [|exact Hocc].
    eapply Forall_impl; [exact IH|]. simpl. auto.
  - rewrite sanitize_fields_None; [done|].
    eapply list_any_impl; [|exact Hocc].
    eapply Forall_impl; [exact IH|]. intros [k v]. simpl. auto.
Qed.

(** ** [verifyToken] and [userRateLimit] *)

(** X11: [verifyToken] creates the document of a new user without credits
    (and with plan ['free']), so the user's first generation request is
    refused with 403 and 0 current credits. For an existing user it only
    writes [lastLogin]: the credits and usage counters are left as they
    are. *)
Theorem new_user_has_no_credits (authorization : option string)
    (verifyIdToken : string -> option User) (token : string) (u : User)
    (w : World) (req : Request) (now : Z) (s : St) (p : Profile) :
  bearer_token authorization = Some token -> token <> "" ->
  verifyIdToken token = Some u ->
  w_user w = Some u -> w_read_ok w = true ->
  let '(r, s', p') := verifyToken authorization verifyIdToken true now s p in
  (account s = None ->
   r = inr u /\ account s' = Some new_user_account /\
   p' = mkProfile (Some "free") (Some now) (Some now) /\
   run_generate w req s' = (Some (InsufficientCredits 0 CREDITS_PER_VIDEO upgradeOptions), s')) /\
  (forall a, account s = Some a ->
   r = inr u /\ s' = s /\ pr_lastLogin p' = Some now /\ pr_plan p' = pr_plan p).
Proof.
  intros Htok Hne Hver Hu Hread. unfold verifyToken. rewrite Htok.
  destruct token as [|c token]; [done|]. rewrite Hver.
  destruct (account s) as [a0|] eqn:Ha; split; try done.
  - intros _. split; [done|]. split; [done|]. split; [done|].
    unfold run_generate, generate_video, checkVideoLimits. rewrite Hu, Hread.
    unfold mbind, M_bind, mret, M_ret, get, finish. simpl.
    reflexivity.
Qed.


Section RateLimit.
Variables (maxRequests windowMs : Z) (u : string).

Lemma filter_count_mono (P Q : Z -> Prop) `{!forall x, Decision (P x)} `{!forall x, Decision (Q x)}
    (l : list Z) :
  (forall x, x ∈ l -> P x -> Q x) -> (length (filter P l) <= length (filter Q l))%nat.
Proof.
  induction l as [|x l IH]; intros Himp; [done|].
  rewrite !filter_cons.
  assert (IH' : (length (filter P l) <= length (filter Q l))%nat)
    by (apply IH; intros y Hy; apply Himp; set_solver).
  repeat case_decide; simpl; try lia.
  exfalso. match goal with HP : P x, HQ : ~ Q x |- _ => apply HQ, Himp; [set_solver|done] end.
Qed.

Lemma filter_filter_after (a b : Z) (l : list Z) :
  a <= b -> filter (fun x => b < x) (filter (fun x => a < x) l) = filter (fun x => b < x) l.
Proof.
  intros Hab. induction l as [|x l IH]; [done|].
  rewrite !filter_cons. repeat case_decide; simpl; rewrite ?filter_cons;
    repeat case_decide; try lia; congruence.
Qed.

Lemma userRateLimit_other (R : rate_map) (v : option string) (now : Z) :
  v <> Some u -> user_list u (snd (userRateLimit maxRequests windowMs R v now)) = user_list u R.
Proof.
  intros Hv. unfold userRateLimit, user_list.
  destruct v as [v|]; [|done].
  assert (v <> u) by congruence.
  destruct (R !! v); case_decide; simpl; rewrite ?lookup_insert_ne by done; done.
Qed.

Lemma rl_inv_step (R : rate_map) (acc : list Z) (T now : Z) :
  T <= now -> rl_inv maxRequests windowMs u R acc T ->
  let '(ok, R') := userRateLimit maxRequests windowMs R (Some u) now in
  if ok then rl_inv maxRequests windowMs u R' (acc ++ [now]) now else rl_inv maxRequests windowMs u R' acc now.
Proof.
  intros HT (Hf & Hle & Hw).
  assert (Hl : default [] (match R !! u with Some _ => R | None => <[u:=[]]> R end !! u)
               = user_list u R)
    by (unfold user_list; destruct (R !! u) eqn:E; simpl; rewrite ?lookup_insert_eq, ?E; done).
  unfold userRateLimit. rewrite Hl.
  rewrite (Hf now HT).
  case_decide as Hd; simpl.
  - split; [|split; [intros a Ha; specialize (Hle a Ha); lia|done]].
    intros tau Htau. unfold user_list.
    destruct (R !! u) eqn:E; [|rewrite lookup_insert_eq]; simpl.
    + apply Hf. lia.
    + specialize (Hf tau ltac:(lia)). unfold user_list in Hf. rewrite E in Hf. done.
  - split; [|split].
    + intros tau Htau. unfold user_list. rewrite lookup_insert_eq. simpl.
      rewrite !filter_app, filter_filter_after by lia. done.
    + intros a Ha. apply elem_of_app in Ha as [Ha|Ha]; [specialize (Hle a Ha); lia|set_solver].
    + intros t. unfold in_window. rewrite filter_app, length_app.
      rewrite filter_cons, filter_nil. case_decide as Hn; simpl.
      * assert (Hc : (length (filter (fun a : Z => (t - windowMs < a <= t)%Z) acc)
                      <= length (filter (fun x : Z => (now - windowMs < x)%Z) acc))%nat).
        { apply filter_count_mono. intros a Ha Hin. specialize (Hle a Ha). lia. }
        lia.
      * specialize (Hw t). unfold in_window in Hw. lia.
Qed.

Lemma rl_run_bound (trace : list (option string * Z)) :
  forall (R : rate_map) (acc : list Z) (T : Z),
  nondecreasing (T :: map snd trace) -> rl_inv maxRequests windowMs u R acc T ->
  forall t, Z.of_nat (in_window windowMs t
              (acc ++ times_of u (rate_limit_run maxRequests windowMs R trace)))
            <= Z.max 0 maxRequests.
Proof.
  induction trace as [|[v now] rest IH]; intros R acc T Hnd Hinv t.
  - simpl. rewrite app_nil_r. apply Hinv.
  - destruct Hnd as [HT Hnd]. simpl in HT |- *.
    destruct (decide (v = Some u)) as [->|Hv].
    + pose proof (rl_inv_step R acc T now HT Hinv) as Hs.
      destruct (userRateLimit maxRequests windowMs R (Some u) now) as [ok R'].
      destruct ok.
      * unfold times_of. simpl. rewrite filter_cons_True by done. simpl.
        replace (acc ++ now :: _) with ((acc ++ [now]) ++
            map snd (filter (fun e => fst e = Some u) (rate_limit_run maxRequests windowMs R' rest)))
          by (rewrite <- app_assoc; done).
        apply (IH R' _ now); done.
      * apply (IH R' _ now); done.
    + pose proof (userRateLimit_other R v now Hv) as Ho.
      destruct Hinv as (Hf & Hle & Hw).
      assert (Hinv' : forall R', user_list u R' = user_list u R -> rl_inv maxRequests windowMs u R' acc now).
      { intros R' HR'. split; [|split].
        - intros tau Htau. rewrite HR'. apply Hf. lia.
        - intros a Ha. specialize (Hle a Ha). lia.
        - done. }
      destruct (userRateLimit maxRequests windowMs R v now) as [ok R'] eqn:E.
      simpl in Ho. destruct ok.
      * unfold times_of. simpl. rewrite filter_cons_False by done.
        apply (IH R' _ now); [done|by apply Hinv'].
      * apply (IH R' _ now); [done|by apply Hinv'].
Qed.

End RateLimit.

(** X12: for requests in time order through one [userRateLimit] instance, no
    window of [windowMs] lets more than [maxRequests] requests of a user
    through. *)
Theorem userRateLimit_window (maxRequests windowMs : Z) (u : string)
    (trace : list (option string * Z)) (t : Z) :
  nondecreasing (map snd trace) ->
  Z.of_nat (in_window windowMs t (times_of u (rate_limit_run maxRequests windowMs ∅ trace)))
    <= Z.max 0 maxRequests.
Proof.
  intros Hnd. destruct trace as [|[v t0] rest]; [simpl; unfold in_window; simpl; lia|].
  apply (rl_run_bound maxRequests windowMs u ((v, t0) :: rest) ∅ [] t0).
  - simpl. split; [lia|done].
  - split; [|split].
    + intros tau _. done.
    + intros a Ha. set_solver.
    + intros t'. unfold in_window. simpl. lia.
Qed.

(** ** Pricing *)

(** X13: [/add-credits] adds any amount of credits between 20 and 500 on the
    caller's word alone, and records as paid the [amount] the caller sends
    (or [credits * 4] if absent or zero). *)
Theorem add_credits_unverified (pw : PricingWorld) (u : User) (c : Z)
    (orderId paymentId : option string) (amount : option Z) (s : St) (l : Ledger) (a : Account) :
  20 <= c <= 500 -> account s = Some a ->
  pw_update_ok pw = true -> pw_add_ok pw = true -> pw_read_ok pw = true ->
  let '(r, s', l') := add_credits pw u (Some c) orderId paymentId amount s l in
  r = AddOk c (credits a + c) (amount_or amount c) orderId paymentId /\
  account s' = Some (mkAccount (credits a + c) (creditsUsed a) (videosGenerated a)
                       (lastVideoGenerated a)) /\
  totalSpent l' = totalSpent l + amount_or amount c.
Proof.
  intros Hc Ha Hu Hadd Hr. unfold add_credits.
  rewrite decide_False by lia. rewrite Ha, Hu, Hadd, Hr. simpl. done.
Qed.

(** X14: when the transaction record fails after the account update, the
    answer is 500 but the credits and the total spent stay increased,
    with no transaction recorded. *)
Theorem add_credits_partial_failure (pw : PricingWorld) (u : User) (c : Z)
    (orderId paymentId : option string) (amount : option Z) (s : St) (l : Ledger) (a : Account) :
  20 <= c <= 500 -> account s = Some a ->
  pw_update_ok pw = true -> pw_add_ok pw = false ->
  let '(r, s', l') := add_credits pw u (Some c) orderId paymentId amount s l in
  r = AddFailed /\ balance s' = balance s + c /\
  totalSpent l' = totalSpent l + amount_or amount c /\ transactions l' = transactions l.
Proof.
  intros Hc Ha Hu Hadd. unfold add_credits.
  rewrite decide_False by lia. rewrite Ha, Hu, Hadd. unfold balance. simpl. rewrite Ha. done.
Qed.

(** X15: for 20 to 500 credits, [/buy-credits] quotes 4 per credit, and the
    savings are 4 * (20 - credits mod 20) unless credits is a multiple of 20,
    where there are none. *)
Theorem buy_credits_savings (c : Z) :
  20 <= c <= 500 ->
  buy_credits (Some c) =
    BuyQuote c (4 * c) 4 (if decide (c mod 20 = 0) then None else Some (4 * (20 - c mod 20))).
Proof.
  intros Hc. unfold buy_credits, js_ceil_div.
  rewrite !decide_False by lia.
  pose proof (Z.div_mod c 20 ltac:(lia)) as E1.
  pose proof (Z.mod_pos_bound c 20 ltac:(lia)) as B1.
  pose proof (Z.div_mod (- c) 20 ltac:(lia)) as E2.
  pose proof (Z.mod_pos_bound (- c) 20 ltac:(lia)) as B2.
  replace (c * 4) with (4 * c) by lia.
  f_equal. case_decide as Hm; case_decide as Hs; try f_equal; lia.
Qed.

(** X16: [possibleVideos] of [/credits] is at least 1 exactly when
    [checkVideoLimits] lets the user through, and one video's usage update
    lowers it by exactly 1. *)
Theorem possibleVideos_matches_check (w : World) (s : St) (a : Account) (now : Z) :
  w_user w <> None -> w_read_ok w = true -> account s = Some a ->
  (forall p, possibleVideos (credits_balance true s) = Some p ->
     (1 <= p <-> fst (checkVideoLimits w s) = Cont tt)) /\
  possibleVideos (credits_balance true (set_account (Some (video_usage_increment now a)) s)) =
    option_map (fun p => p - 1) (possibleVideos (credits_balance true s)).
Proof.
  intros Hu Hr Ha. unfold credits_balance, checkVideoLimits. rewrite Ha. simpl. split.
  - intros p Hp. simplify_eq. destruct (w_user w) as [uu|]; [|done]. rewrite Hr.
    unfold mbind, M_bind, get, mret, M_ret, finish. simpl. rewrite Ha.
    unfold CREDITS_PER_VIDEO. case_decide; simpl; split; intros Hx; try done; try lia.
    + exfalso. pose proof (Z.div_le_mono (credits a) 19 20 ltac:(lia) ltac:(lia)). 
      rewrite (Z.div_small 19 20) in * by lia. lia.
    + apply Z.div_le_lower_bound; lia.
  - f_equal. unfold video_usage_increment. simpl. unfold CREDITS_PER_VIDEO.
    replace (credits a - 20) with (credits a + (-1) * 20) by lia.
    rewrite Z.div_add by lia. lia.
Qed.

(** X17: [/check-limits] never answers [canGenerate: true]: every successful
    answer has [canGenerate] false and [upgradeRequired] true. *)
Theorem check_limits_never_allows (read_ok query_ok : bool) (userDoc : option (option string))
    (type : option string) (videosCount scriptsCount : Z) :
  match check_limits read_ok query_ok userDoc type videosCount scriptsCount with
  | CLOk canGenerate _ _ _ upgradeRequired => canGenerate = false /\ upgradeRequired = true
  | CLFailed => True
  end.
Proof.
  unfold check_limits. destruct read_ok; [|done]. destruct userDoc as [plan|]; [|done].
  unfold check_limits_branch.
  destruct (default (PlanObj plan_free) (PRICING_PLANS_get (default "undefined" plan))) as [p|key] eqn:E.
  - assert (Hp : features p = mkPlanFeatures FUndefined FUnlimited).
    { unfold PRICING_PLANS_get in E. repeat case_decide; simpl in E; simplify_eq; done. }
    rewrite Hp. repeat case_decide; destruct query_ok; simpl; done.
  - repeat case_decide; destruct query_ok; simpl; done.
Qed.

(** ** Templates, scripts, AI videos and uploads *)

(** X18: the template route never touches the account: no credit check, no
    usage update, no stored video, no status query. *)
Theorem template_never_charges (w : World) (templateId script : string)
    (cust : customizations) (s : St) :
  let s' := snd (template_generate w templateId script cust s) in
  account s' = account s /\ usage_updates s' = usage_updates s /\
  videos s' = videos s /\ status_queries s' = status_queries s.
Proof.
  unfold template_generate.
  destruct (template_find templateId); [|done]. destruct cust; [done|].
  destruct (getNextHeyGenKey _ _) as [[k|] m]; simpl; [|done].
  destruct (decide (k = "")) as [->|Hk]; [done|].
  destruct k as [|c k]; [done|].
  unfold heygen_generate, mbind, M_bind, get, modify, throw, mret, M_ret.
  destruct (w_generate w); simpl; done.
Qed.

Lemma template_dimensions_select (o : string) :
  template_dimensions o = select_dimensions None o.
Proof. done. Qed.

(** X19: the template route starts a HeyGen render for any caller, account or
    not, with the template's orientation, using one key. *)
Theorem template_generates_without_credits (w : World) (templateId script : string)
    (c_avatar c_voice : string) (s : St) (t : Template) (key videoId : string) :
  template_find templateId = Some t ->
  fst (getNextHeyGenKey (HEYGEN_KEYS w) (keyUsageCount s)) = Some key -> key <> "" ->
  w_generate w = inr videoId ->
  template_generate w templateId script (CustObj c_avatar c_voice) s =
    (TplStarted videoId (tpl_name t) (tpl_orientation t),
     set_submitted (submitted s ++ [select_dimensions None (tpl_orientation t)])
       (set_keyUsageCount (snd (getNextHeyGenKey (HEYGEN_KEYS w) (keyUsageCount s))) s)).
Proof.
  intros Ht Hk Hne Hg. unfold template_generate. rewrite Ht.
  destruct (getNextHeyGenKey _ _) as [k m]. simpl in Hk |- *. subst k.
  destruct key as [|c key]; [done|].
  unfold heygen_generate, mbind, M_bind, get, modify, mret, M_ret. rewrite Hg. simpl.
  rewrite template_dimensions_select. done.
Qed.

Lemma prefix_app (p a b : string) :
  String.prefix p a = true -> String.prefix p (a ++ b)%string = true.
Proof.
  revert p. induction a as [|c' a IH]; intros p H; destruct p as [|c p]; simpl in *; try done.
  all: try (destruct b; done).
  case_match; [by apply IH|done].
Qed.

Lemma contains_app_l (pat a b : string) : contains pat a = true -> contains pat (a ++ b)%string = true.
Proof.
  induction a as [|c a IH]; simpl.
  - intros H. destruct pat as [|x pat]; [destruct b; done|simpl in H; done].
  - intros H. apply orb_true_iff in H as [H|H].
    + pose proof (prefix_app _ (String c a) b H) as H2. simpl in H2. rewrite H2. done.
    + rewrite IH by done. apply orb_true_r.
Qed.

Lemma contains_app_r (pat a b : string) : contains pat b = true -> contains pat (a ++ b)%string = true.
Proof.
  induction a as [|c a IH]; simpl; [done|]. intros Hb. rewrite IH by done.
  apply orb_true_r.
Qed.

Lemma custom_prompt_contains (topic duration language tone : string) :
  exists P, script_prompt "custom" topic "" duration language tone = Some P /\
    contains "{customInstructions}" P = true.
Proof.
  eexists. split; [reflexivity|].
  rewrite decide_False by (intros [_ Hn]; done).
  apply contains_app_l. unfold js_replace. simpl.
  apply contains_app_r. apply contains_app_r. reflexivity.
Qed.

(** X20: for category ['custom'] without [customInstructions], the prompt
    sent to Groq still contains the literal placeholder
    [{customInstructions}]. *)
Theorem custom_prompt_keeps_placeholder (gw : GroqWorld) (body : ScriptBody) (ss : ScriptSt) :
  sb_topic body <> "" -> sb_category body = Some "custom" ->
  default "" (sb_customInstructions body) = "" ->
  exists prompt, groq_prompts (snd (generate_script gw body ss)) = groq_prompts ss ++ [prompt] /\
    contains "{customInstructions}" prompt = true.
Proof.
  intros Ht Hc Hi. unfold generate_script. cbv beta zeta. rewrite Hc, Hi.
  rewrite decide_False by done. simpl default.
  destruct (custom_prompt_contains (sb_topic body) (default "60s" (sb_duration body))
              (default "english" (sb_language body)) (default "professional" (sb_tone body)))
    as (P & HP & HC).
  rewrite HP. exists P. split; [|done].
  repeat case_match; done.
Qed.

Lemma checkVideoLimits_pass (w : World) (s : St) (u : User) :
  w_user w = Some u -> w_read_ok w = true -> CREDITS_PER_VIDEO <= balance s ->
  checkVideoLimits w s = (Cont tt, s).
Proof.
  intros Hu Hr Hb. unfold checkVideoLimits. rewrite Hu, Hr.
  unfold mbind, M_bind, get, mret, M_ret, finish. simpl.
  unfold balance in Hb. rewrite decide_False by lia. done.
Qed.

Lemma SCRIPT_PROMPTS_get_template (category : string) :
  category ∉ object_prototype_members ->
  exists t, SCRIPT_PROMPTS_get category = PromptTemplate t.
Proof.
  intros Hc. unfold SCRIPT_PROMPTS_get.
  destruct (List.find _ _) as [[k t]|]; [by eexists|].
  rewrite decide_False by done. by eexists.
Qed.

(** X21: the AI video route debits the video (one usage update) and answers
    success as soon as HeyGen accepts the job: no status is polled, no video
    record is stored, and the script count is updated too. *)
Theorem ai_route_debits_before_video_exists (w : World) (gw : GroqWorld) (body : AiBody)
    (s : St) (ss : ScriptSt) (u : User) (prompt script key videoId docId : string) :
  w_user w = Some u -> w_read_ok w = true -> CREDITS_PER_VIDEO <= balance s ->
  ab_topic body <> "" -> ab_avatar body <> "" ->
  ai_prompt (default "business" (ab_category body)) (ab_topic body)
    (default "60s" (ab_duration body)) (default "english" (ab_language body))
    (default "professional" (ab_tone body)) = Some prompt ->
  groq_complete gw prompt = inr script -> script <> "" ->
  fst (getNextHeyGenKey (HEYGEN_KEYS w) (keyUsageCount s)) = Some key -> key <> "" ->
  w_generate w = inr videoId -> ai_videos_add gw = inr docId ->
  let '(r, s', ss') := generate_video_with_ai w gw body s ss in
  r = AiStarted docId videoId script /\
  submitted s' = submitted s ++ [select_dimensions None (default "landscape" (ab_orientation body))] /\
  status_queries s' = status_queries s /\ videos s' = videos s /\
  usage_updates s' = S (usage_updates s) /\
  account s' = (if w_update_ok w then option_map (video_usage_increment (clock s)) (account s)
                else account s) /\
  script_updates ss' = S (script_updates ss).
Proof.
  intros Hu Hr Hb Ht Ha Hp Hg Hs Hk Hkne Hgen Hadd.
  unfold generate_video_with_ai. rewrite (checkVideoLimits_pass w s u Hu Hr Hb), Hu.
  cbv beta zeta. rewrite decide_False by tauto. rewrite Hp, Hg, decide_False by done.
  destruct (getNextHeyGenKey _ _) as [k m]. simpl in Hk. subst k.
  destruct key as [|c key]; [done|].
  unfold heygen_generate, mbind, M_bind, get, modify, mret, M_ret. rewrite Hgen. simpl.
  rewrite Hadd. unfold updateUsage_video, mbind, M_bind, get, modify, mret, M_ret. simpl.
  assert (Hd : ai_dimensions (default "landscape" (ab_orientation body)) =
               select_dimensions None (default "landscape" (ab_orientation body))).
  { unfold ai_dimensions, select_dimensions. repeat case_decide; try done; exfalso; congruence. }
  rewrite Hd. destruct (w_update_ok w); simpl; repeat split; done.
Qed.

(** X22: when Groq fails or returns no script, the AI route answers 500 and
    changes neither the account, the key counters nor the script count. *)
Theorem ai_route_groq_failure_keeps_state (w : World) (gw : GroqWorld) (body : AiBody)
    (s : St) (ss : ScriptSt) (u : User) (prompt : string) :
  w_user w = Some u -> w_read_ok w = true -> CREDITS_PER_VIDEO <= balance s ->
  ab_topic body <> "" -> ab_avatar body <> "" ->
  ai_prompt (default "business" (ab_category body)) (ab_topic body)
    (default "60s" (ab_duration body)) (default "english" (ab_language body))
    (default "professional" (ab_tone body)) = Some prompt ->
  (forall script, groq_complete gw prompt = inr script -> script = "") ->
  let '(r, s', ss') := generate_video_with_ai w gw body s ss in
  r = AiFailed /\ s' = s /\ script_updates ss' = script_updates ss.
Proof.
  intros Hu Hr Hb Ht Ha Hp Hg.
  unfold generate_video_with_ai. rewrite (checkVideoLimits_pass w s u Hu Hr Hb), Hu.
  cbv beta zeta. rewrite decide_False by tauto. rewrite Hp.
  destruct (groq_complete gw prompt) as [e|script] eqn:E; [done|].
  rewrite (Hg script eq_refl), decide_True by done. done.
Qed.

(** X23: the file multer stores for [/api/upload-asset] is removed on every
    path except the 503 "no API keys" answer, where it stays in the upload
    directory. *)
Theorem upload_file_kept_only_on_503 (w : World) (uw : UploadWorld) (u : User)
    (f : UploadedFile) (body_type : option string) (st : UploadSt) :
  f_path f ∉ uploadDir_files st ->
  let '(r, st') := upload_route w uw u (Some f) body_type st in
  (f_path f ∈ uploadDir_files st' <-> r = UpNoApiKeys) /\
  uploadDir_files st' ∖ {[ f_path f ]} = uploadDir_files st.
Proof.
  intros Hf. unfold upload_route, upload_asset. simpl.
  destruct (getNextHeyGenKey _ _) as [[k|] m]; simpl.
  2: { split; [split; [intros _; done|intros _; set_solver]|set_solver]. }
  destruct (decide (k = "")) as [->|Hk].
  { simpl. split; [split; [intros _; done|intros _; set_solver]|set_solver]. }
  destruct k as [|c k]; [done|].
  destruct (uw_upload uw) as [e|[aid daid]]; simpl.
  - destruct e; simpl;
      (split; [split; [intros Hin; exfalso; set_solver|intros Hr; discriminate]|set_solver]).
  - destruct (uw_store uw) as [e|docId]; simpl.
    + destruct e; simpl;
        (split; [split; [intros Hin; exfalso; set_solver|intros Hr; discriminate]|set_solver]).
    + split; [split; [intros Hin; exfalso; set_solver|intros Hr; discriminate]|set_solver].
Qed.

(** ** Witnesses of the added properties *)

Lemma getNextHeyGenKey_within_quota_witness :
  map_Forall (fun _ v => (v <= KEY_QUOTA)%nat)
    (snd (getNextHeyGenKey ["k1"; "k2"] {[ "k1" := 10%nat ]})).
Proof.
  apply (proj1 (getNextHeyGenKey_within_quota ["k1"; "k2"] {[ "k1" := 10%nat ]}
    ltac:(apply map_Forall_singleton; unfold KEY_QUOTA; lia))).
Defined.

Lemma empty_key_pool_answers_503_witness :
  run_generate (env_world None) sample_request (sample_state 25) =
    (Some NoApiKeys, set_keyUsageCount {[ "undefined" := 1%nat ]} (sample_state 25)).
Proof.
  apply (empty_key_pool_answers_503 (env_world None) sample_request (sample_state 25)
    (mkUser "u1" "u1@example.com") eq_refl eq_refl ltac:(vm_compute; discriminate)
    ltac:(discriminate) ltac:(discriminate) eq_refl).
Defined.

Lemma empty_pool_entry_answers_503_witness :
  fst (run_generate (env_world (Some "k1,,k2")) sample_request
         (mkSt {[ "k1" := 10%nat ]} (Some (mkAccount 25 0 0 None)) [] ∅ [] 0 0 0))
  = Some NoApiKeys.
Proof.
  exact (f_equal fst (empty_pool_entry_answers_503 (env_world (Some "k1,,k2")) sample_request
    (mkSt {[ "k1" := 10%nat ]} (Some (mkAccount 25 0 0 None)) [] ∅ [] 0 0 0)
    (mkUser "u1" "u1@example.com") eq_refl eq_refl ltac:(vm_compute; discriminate)
    ltac:(discriminate) ltac:(discriminate) ltac:(vm_compute; reflexivity))).
Defined.

Lemma generate_call_error_answer_witness :
  fst (run_generate generate_rejecting_world sample_request (sample_state 25))
  = Some (HeyGenApiError 401).
Proof.
  exact (proj1 (generate_call_error_answer generate_rejecting_world sample_request
    (sample_state 25) (mkUser "u1" "u1@example.com") "k1" (HttpError 401)
    eq_refl eq_refl ltac:(vm_compute; discriminate) ltac:(discriminate)
    ltac:(discriminate) eq_refl ltac:(discriminate) eq_refl)).
Defined.

Lemma catbox_failure_answer_witness :
  fst (run_generate catbox_failing_world sample_request (sample_state 25))
  = Some (InternalError "Failed to upload video to Catbox").
Proof.
  exact (proj1 (catbox_failure_answer catbox_failing_world sample_request
    (sample_state 25) (mkUser "u1" "u1@example.com") "k1" "vid1" 2
    "https://heygen.example/v.mp4" (PlainError "socket hang up")
    eq_refl eq_refl ltac:(vm_compute; discriminate)
    ltac:(discriminate) ltac:(discriminate) eq_refl ltac:(discriminate) eq_refl
    ltac:(vm_compute; lia)
    ltac:(intros n Hn; simpl; unfold completed_on_third;
          case_decide; [lia | split; discriminate])
    eq_refl ltac:(discriminate) eq_refl eq_refl eq_refl)).
Defined.

Lemma usage_update_failure_still_succeeds_witness :
  fst (run_generate update_failing_world sample_request (sample_state 25))
  = Some (Success "doc1" "https://files.catbox.moe/abc.mp4").
Proof.
  exact (proj1 (usage_update_failure_still_succeeds update_failing_world sample_request
    (sample_state 25) (mkUser "u1" "u1@example.com") "k1" "vid1" 2
    "https://heygen.example/v.mp4" "https://files.catbox.moe/abc.mp4" "doc1"
    eq_refl eq_refl ltac:(vm_compute; discriminate)
    ltac:(discriminate) ltac:(discriminate) eq_refl ltac:(discriminate) eq_refl
    ltac:(vm_compute; lia)
    ltac:(intros n Hn; simpl; unfold completed_on_third;
          case_decide; [lia | split; discriminate])
    eq_refl ltac:(discriminate) eq_refl eq_refl eq_refl eq_refl eq_refl)).
Defined.

Lemma deepSanitize_keys_clean_witness :
  keys_clean (JObj [("name", JStr "Hello")]).
Proof.
  exact (deepSanitize_keys_clean (fun s => s) (JObj [("na-me", JStr "Hello")])
    (JObj [("name", JStr "Hello")]) eq_refl).
Defined.

Lemma deepSanitize_rejects_anywhere_witness :
  deepSanitize (fun s => s) (JObj [("script", JStr "Don't give up")]) = None.
Proof.
  apply (deepSanitize_rejects_anywhere (fun s => s) (JObj [("script", JStr "Don't give up")])
    "Don't give up" ltac:(simpl; left; reflexivity) eq_refl).
  exists "'". split; [apply (bool_decide_unpack _); vm_compute; exact I|reflexivity].
Defined.

Lemma new_user_has_no_credits_witness :
  fst (run_generate (sample_world completed_on_third) sample_request
    (snd (fst (verifyToken (Some "Bearer tok") sample_verifyIdToken true 7
                 (mkSt ∅ None [] ∅ [] 0 0 0) (mkProfile None None None)))))
  = Some (InsufficientCredits 0 CREDITS_PER_VIDEO upgradeOptions).
Proof.
  exact (f_equal fst (proj2 (proj2 (proj2 (proj1 (new_user_has_no_credits
    (Some "Bearer tok") sample_verifyIdToken "tok" (mkUser "u1" "u1@example.com")
    (sample_world completed_on_third) sample_request 7 (mkSt ∅ None [] ∅ [] 0 0 0)
    (mkProfile None None None) eq_refl ltac:(discriminate) eq_refl eq_refl eq_refl)
    eq_refl))))).
Defined.

Lemma userRateLimit_window_witness :
  Z.of_nat (in_window 1000 20 (times_of "u1" (rate_limit_run 2 1000 ∅
    [(Some "u1", 0); (Some "u1", 10); (Some "u1", 20); (None, 25)]))) <= Z.max 0 2.
Proof.
  apply (userRateLimit_window 2 1000 "u1"
    [(Some "u1", 0); (Some "u1", 10); (Some "u1", 20); (None, 25)] 20).
  simpl. lia.
Defined.

Lemma add_credits_unverified_witness :
  let '(r, s', l') := add_credits (mkPricingWorld true true true 0) (mkUser "u1" "u1@example.com")
                        (Some 100) None None (Some 1) (sample_state 0) (mkLedger 0 None []) in
  r = AddOk 100 100 1 None None /\ account s' = Some (mkAccount 100 0 0 None) /\
  totalSpent l' = 1.
Proof.
  exact (add_credits_unverified (mkPricingWorld true true true 0) (mkUser "u1" "u1@example.com")
    100 None None (Some 1) (sample_state 0) (mkLedger 0 None []) (mkAccount 0 0 0 None)
    ltac:(lia) eq_refl eq_refl eq_refl eq_refl).
Defined.

Lemma add_credits_partial_failure_witness :
  let '(r, s', l') := add_credits (mkPricingWorld true false true 0) (mkUser "u1" "u1@example.com")
                        (Some 100) None None None (sample_state 0) (mkLedger 0 None []) in
  r = AddFailed /\ balance s' = 100 /\ totalSpent l' = 400 /\ transactions l' = [].
Proof.
  exact (add_credits_partial_failure (mkPricingWorld true false true 0)
    (mkUser "u1" "u1@example.com") 100 None None None (sample_state 0) (mkLedger 0 None [])
    (mkAccount 0 0 0 None) ltac:(lia) eq_refl eq_refl eq_refl).
Defined.

Lemma buy_credits_savings_witness :
  buy_credits (Some 25) = BuyQuote 25 100 4 (Some 60).
Proof.
  exact (buy_credits_savings 25 ltac:(lia)).
Defined.

Lemma possibleVideos_matches_check_witness :
  possibleVideos (credits_balance true
    (set_account (Some (video_usage_increment 0 (mkAccount 45 0 0 None))) (sample_state 45)))
  = option_map (fun p => p - 1) (possibleVideos (credits_balance true (sample_state 45))).
Proof.
  exact (proj2 (possibleVideos_matches_check (sample_world completed_on_third) (sample_state 45)
    (mkAccount 45 0 0 None) 0 ltac:(discriminate) eq_refl eq_refl)).
Defined.

Lemma template_generates_without_credits_witness :
  fst (template_generate (sample_world completed_on_third) "social_media_post" ""
         (CustObj "" "") (mkSt ∅ None [] ∅ [] 0 0 0))
  = TplStarted "vid1" "Social Media Content" "portrait".
Proof.
  exact (f_equal fst (template_generates_without_credits (sample_world completed_on_third)
    "social_media_post" "" "" "" (mkSt ∅ None [] ∅ [] 0 0 0) _ "k1" "vid1"
    eq_refl eq_refl ltac:(discriminate) eq_refl)).
Defined.

Lemma custom_prompt_keeps_placeholder_witness :
  exists prompt,
    groq_prompts (snd (generate_script echo_groq
      (mkScriptBody "AI tools" (Some "custom") None None None None) (mkScriptSt [] [] 0%nat)))
    = [] ++ [prompt] /\ contains "{customInstructions}" prompt = true.
Proof.
  exact (custom_prompt_keeps_placeholder echo_groq
    (mkScriptBody "AI tools" (Some "custom") None None None None) (mkScriptSt [] [] 0%nat)
    ltac:(discriminate) eq_refl eq_refl).
Defined.

Lemma ai_route_debits_before_video_exists_witness :
  fst (fst (generate_video_with_ai (sample_world completed_on_third) echo_groq sample_ai_body
              (sample_state 25) (mkScriptSt [] [] 0%nat)))
  = AiStarted "ai1" "vid1" "Hello there".
Proof.
  exact (proj1 (ai_route_debits_before_video_exists (sample_world completed_on_third) echo_groq
    sample_ai_body (sample_state 25) (mkScriptSt [] [] 0%nat) (mkUser "u1" "u1@example.com")
    _ "Hello there" "k1" "vid1" "ai1"
    eq_refl eq_refl ltac:(vm_compute; discriminate) ltac:(discriminate) ltac:(discriminate)
    eq_refl eq_refl ltac:(discriminate) eq_refl ltac:(discriminate) eq_refl eq_refl)).
Defined.

Lemma ai_route_groq_failure_keeps_state_witness :
  fst (fst (generate_video_with_ai (sample_world completed_on_third) throttled_groq sample_ai_body
              (sample_state 25) (mkScriptSt [] [] 0%nat)))
  = AiFailed.
Proof.
  exact (proj1 (ai_route_groq_failure_keeps_state (sample_world completed_on_third) throttled_groq
    sample_ai_body (sample_state 25) (mkScriptSt [] [] 0%nat) (mkUser "u1" "u1@example.com")
    _ eq_refl eq_refl ltac:(vm_compute; discriminate) ltac:(discriminate) ltac:(discriminate)
    eq_refl ltac:(intros sc Hsc; discriminate))).
Defined.

Lemma upload_file_kept_only_on_503_witness :
  f_path sample_upload ∈ uploadDir_files (snd (upload_route (env_world None) sample_upload_world
    (mkUser "u1" "u1@example.com") (Some sample_upload) None (mkUploadSt ∅ ∅ []))).
Proof.
  exact (proj2 (proj1 (upload_file_kept_only_on_503 (env_world None) sample_upload_world
    (mkUser "u1" "u1@example.com") sample_upload None (mkUploadSt ∅ ∅ [])
    ltac:(simpl; set_solver))) eq_refl).
Defined.
